(** * GeoBaseMain: the GeoBase command-line launcher

    A shallow embedding of [GeoBaseMain.py] (Python 2) and the properties of
    its query pipeline and of its terminal rendering.

    Conventions of the embedding:
    - a Python 2 [str] is a byte string, hence a Rocq [string] (a sequence of
      8-bit [ascii]); a [unicode] object is a list of code points ([list N]);
    - Python [int]s are [Z]; the floats of the program (scores, distances,
      coordinates, limits) are modelled by their exact rational value in [Q];
    - [sys.stdout] and [sys.stderr] are the lists of the chunks written to
      them, oldest first; [exit] and uncaught exceptions are outcomes of a
      small state-and-error monad [M];
    - the data store ([GeoBases.GeoBaseModule.GeoBase]), [termcolor.colored],
      [float], [int] and [str] on floats are collaborators outside this
      module: they are taken as parameters. *)

From Stdlib Require Import ZArith NArith QArith Qabs Ascii String List Lia.
From Stdlib Require Import Sorted.
From stdpp Require Import base strings list gmap pretty.

Open Scope string_scope.
Open Scope Z_scope.

(** * Part I: definitions *)

(** ** Python built-ins used by the launcher *)

Module Py.

(** [s.strip(chars)]: drop the leading and the trailing characters that
    belong to [chars]. *)
Fixpoint lstrip (chars : list ascii) (s : list ascii) : list ascii :=
  match s with
  | [] => []
  | a :: s' => if bool_decide (a ∈ chars) then lstrip chars s' else s
  end.

Definition strip (chars : list ascii) (s : string) : string :=
  string_of_list_ascii
    (rev (lstrip chars (rev (lstrip chars (list_ascii_of_string s))))).

(** [s.split(sep)] for a one-character separator: always at least one
    token, empty tokens are kept. *)
Fixpoint split (sep : ascii) (s : string) : list string :=
  match s with
  | EmptyString => [""]
  | String a s' =>
      if bool_decide (a = sep) then "" :: split sep s'
      else match split sep s' with
           | t :: ts => String a t :: ts
           | [] => [String a ""]
           end
  end.

(** The whitespace of a Python 2 byte string: space, \t, \n, \v, \f, \r. *)
Definition whitespace : list ascii :=
  [" "%char; "009"%char; "010"%char; "011"%char; "012"%char; "013"%char].

Definition is_space (a : ascii) : bool := bool_decide (a ∈ whitespace).

(** [s.split()] without separator: the maximal runs of non-whitespace.
    [cur] is the token being read, reversed. *)
Fixpoint split_ws_go (cur : list ascii) (s : list ascii) : list string :=
  let flush :=
    match cur with
    | [] => []
    | _ => [string_of_list_ascii (rev cur)]
    end in
  match s with
  | [] => flush
  | a :: s' =>
      if is_space a then (flush ++ split_ws_go [] s')%list
      else split_ws_go (a :: cur) s'
  end.

Definition split_ws (s : string) : list string :=
  split_ws_go [] (list_ascii_of_string s).

(** [sep.join(l)]. *)
Fixpoint join (sep : string) (l : list string) : string :=
  match l with
  | [] => ""
  | [x] => x
  | x :: l' => x ++ sep ++ join sep l'
  end.

(** [l[:n]] (and [l[0:n]]) for a Python integer [n]: a negative bound
    counts from the end. *)
Definition slice_to {A} (l : list A) (n : Z) : list A :=
  if 0 <=? n then take (Z.to_nat n) l
  else take (length l - Z.to_nat (- n))%nat l.

(** [enumerate(l)]: the elements paired with their position. *)
Fixpoint enumerate_from {A} (i : Z) (l : list A) : list (Q * A) :=
  match l with
  | [] => []
  | x :: l' => (inject_Z i, x) :: enumerate_from (i + 1) l'
  end.

Definition enumerate {A} (l : list A) : list (Q * A) := enumerate_from 0 l.

(** Order of [(score, key)] tuples: on the scores first, then on the
    keys (byte strings, compared lexicographically). *)
Definition tuple_ltb (x y : Q * string) : bool :=
  if Qeq_bool x.1 y.1 then String.ltb x.2 y.2
  else negb (Qle_bool y.1 x.1).

(** [sorted(l)]: a stable sort; [x] goes before the first element that is
    not smaller than it. *)
Fixpoint insert_sorted (x : Q * string) (l : list (Q * string)) :
    list (Q * string) :=
  match l with
  | [] => [x]
  | y :: l' => if tuple_ltb y x then y :: insert_sorted x l' else x :: l
  end.

Definition sorted (l : list (Q * string)) : list (Q * string) :=
  foldr insert_sorted [] l.

(** *** The UTF-8 codec (RFC 3629)

    [s.decode('utf8')] fails with [UnicodeDecodeError] ([None]) on
    truncated, overlong or out-of-range sequences. *)

Definition ustring := list N.

Definition bytes_of (s : string) : list N :=
  map N_of_ascii (list_ascii_of_string s).

Definition of_bytes (l : list N) : string :=
  string_of_list_ascii (map ascii_of_N l).

Definition is_cont (b : N) : bool := ((0x80 <=? b) && (b <? 0xC0))%N.

Fixpoint utf8_decode_bytes (bs : list N) : option ustring :=
  match bs with
  | [] => Some []
  | b0 :: r0 =>
      if (b0 <? 0x80)%N then cons b0 <$> utf8_decode_bytes r0
      else if (b0 <? 0xC2)%N then None
      else if (b0 <? 0xE0)%N then
        match r0 with
        | b1 :: r1 =>
            if is_cont b1
            then cons ((b0 - 0xC0) * 64 + (b1 - 0x80))%N
                   <$> utf8_decode_bytes r1
            else None
        | _ => None
        end
      else if (b0 <? 0xF0)%N then
        match r0 with
        | b1 :: b2 :: r2 =>
            let c := ((b0 - 0xE0) * 4096 + (b1 - 0x80) * 64 + (b2 - 0x80))%N in
            if is_cont b1 && is_cont b2
               && negb (c <? 0x800)%N
               && negb ((0xD800 <=? c) && (c <? 0xE000))%N
            then cons c <$> utf8_decode_bytes r2
            else None
        | _ => None
        end
      else if (b0 <? 0xF5)%N then
        match r0 with
        | b1 :: b2 :: b3 :: r3 =>
            let c := ((b0 - 0xF0) * 262144 + (b1 - 0x80) * 4096
                      + (b2 - 0x80) * 64 + (b3 - 0x80))%N in
            if is_cont b1 && is_cont b2 && is_cont b3
               && negb (c <? 0x10000)%N && (c <? 0x110000)%N
            then cons c <$> utf8_decode_bytes r3
            else None
        | _ => None
        end
      else None
  end.

Definition utf8_decode (s : string) : option ustring :=
  utf8_decode_bytes (bytes_of s).

Definition utf8_encode_char (c : N) : list N :=
  (if c <? 0x80 then [c]
   else if c <? 0x800 then [0xC0 + c / 64; 0x80 + c mod 64]
   else if c <? 0x10000 then
     [0xE0 + c / 4096; 0x80 + (c / 64) mod 64; 0x80 + c mod 64]
   else
     [0xF0 + c / 262144; 0x80 + (c / 4096) mod 64;
      0x80 + (c / 64) mod 64; 0x80 + c mod 64])%N.

Definition utf8_encode (u : ustring) : string :=
  of_bytes (flat_map utf8_encode_char u).

(** A Unicode scalar value: a code point that is not a surrogate. *)
Definition scalar (c : N) : Prop :=
  (c < 0xD800 \/ (0xE000 <= c /\ c < 0x110000))%N.

(** ['%-<w>s' % u]: left-justified in a field of [w] characters. *)
Definition ljust (w : nat) (u : ustring) : ustring :=
  (u ++ replicate (w - length u)%nat 32%N)%list.

(** ['%.3f' % h]: fixed-point with three decimals, the exact value rounded
    half to even. *)
Definition round_half_even (q : Q) : Z :=
  let n := Qnum q in
  let d := Zpos (Qden q) in
  let fl := n / d in
  let r := n mod d in
  if 2 * r <? d then fl
  else if d <? 2 * r then fl + 1
  else if Z.even fl then fl else fl + 1.

Definition digits3 (m : Z) : string :=
  (if m <? 10 then "00" else if m <? 100 then "0" else "") ++ pretty m.

Definition fmt3 (h : Q) : string :=
  let m := round_half_even (Qabs h * 1000) in
  (if Qle_bool 0 h then "" else "-")
    ++ pretty (m / 1000) ++ "." ++ digits3 (m mod 1000).

End Py.

(** ** Outcomes and effects

    A run writes to the two output streams and ends by returning, by
    [exit(code)] or by an uncaught exception.  The world also keeps a ghost
    trace of the store searches, to state in which order the pipeline
    applies them and on which keys. *)

Definition Key := string.

Inductive exn := UnicodeDecodeError | ValueError | IndexError | TypeError.

Inductive outcome (A : Type) :=
| Ret (a : A)
| Exit (code : Z)
| Raise (e : exn).
Arguments Ret {A} a.
Arguments Exit {A} code.
Arguments Raise {A} e.

Inductive stage :=
| TextSearch | ExactMatch | RadiusSearch | NearestNSearch | FuzzyMatch.

Record stage_call := StageCall {
  call_stage : stage;
  call_from_keys : option (list Key);
  call_res : list (Q * Key)
}.

Record world := World {
  stdout : list string;
  stderr : list string;
  trace : list stage_call
}.

Definition M (A : Type) : Type := world -> outcome A * world.

#[global] Instance M_ret : MRet M := fun A a w => (Ret a, w).

#[global] Instance M_bind : MBind M := fun A B f m w =>
  match m w with
  | (Ret a, w') => f a w'
  | (Exit code, w') => (Exit code, w')
  | (Raise e, w') => (Raise e, w')
  end.

Definition write_out (s : string) : M unit := fun w =>
  (Ret tt, World (stdout w ++ [s]) (stderr w) (trace w)).

Definition write_err (s : string) : M unit := fun w =>
  (Ret tt, World (stdout w) (stderr w ++ [s]) (trace w)).

Definition log_call (c : stage_call) : M unit := fun w =>
  (Ret tt, World (stdout w) (stderr w) (trace w ++ [c])).

Definition exit {A} (code : Z) : M A := fun w => (Exit code, w).

Definition raise {A} (e : exn) : M A := fun w => (Raise e, w).

Definition nl : string := String "010"%char "".
Definition tab : string := String "009"%char "".
Definition dq : string := String "034"%char "".

(** [print s] and [print >> sys.stderr, s]. *)
Definition print (s : string) : M unit := write_out (s ++ nl).
Definition print_err (s : string) : M unit := write_err (s ++ nl).

Definition when (b : bool) (m : M unit) : M unit :=
  if b then m else mret tt.

(** [for x in l: body(x)]. *)
Fixpoint for_ {A} (l : list A) (body : A -> M unit) : M unit :=
  match l with
  | [] => mret tt
  | x :: l' => body x ;; for_ l' body
  end.

Definition empty_world : world := World [] [] [].

(** ** The collaborators *)

(** A termcolor style: text colour, highlight, attributes. *)
Definition Color : Type := string * option string * list string.

(** The data store, [GeoBases.GeoBaseModule.GeoBase].  A coordinate is a
    tuple of floats; [from_keys] is the optional restriction of a search. *)
Record GeoBase := {
  fields : list string;
  _data : string;
  _source : string;
  contains : Key -> bool;
  iter_keys : list Key;
  get : Key -> string -> string;
  getLocation : Key -> option (list Q);
  hasTrepSupport : bool;
  hasGeoSupport : bool;
  trepGet : string -> string -> option (list Key) -> bool -> list (Q * Key);
  getKeysWhere : string -> string -> option (list Key) -> list Key;
  findNearPoint : list Q -> Q -> bool -> option (list Key) -> list (Q * Key);
  findClosestFromPoint :
    list Q -> Z -> bool -> option (list Key) -> list (Q * Key);
  fuzzyGet : string -> string -> Q -> option (list Key) -> list (Q * Key)
}.

(** The conversions of the Python runtime and termcolor. *)
Class Runtime := {
  py_float : string -> option Q;   (* float(s); None is ValueError *)
  py_int : string -> option Z;     (* int(s); None is ValueError *)
  str_float : Q -> string;         (* '%s' % x for a float x *)
  colored : string -> Color -> string
}.

(** What a run reads from its environment. *)
Record Env := {
  BASES : list string;                  (* GeoBase.BASES.keys() *)
  open_base : string -> bool -> GeoBase; (* GeoBase(data=, verbose=) *)
  stdin_isatty : bool;
  stdin_rows : list string;
  stty_size : string;                   (* output of `stty size` *)
  elapsed : string                      (* datetime.now() - before *)
}.

(** The parsed command line, [vars(parser.parse_args())]. *)
Record Args := {
  keys : list string;
  base : string;
  fuzzy : option string;
  fuzzy_property : string;
  fuzzy_limit : Q;
  exact : option string;
  exact_property : string;
  near : option string;
  near_limit : Q;
  closest : option string;
  closest_limit : Z;
  trep : option (list string);
  trep_format : string;
  without_grid : bool;
  quiet : bool;
  verbose : bool;
  omit : list string;
  show : list string;
  limit : option string;
  update : bool
}.

(** The defaults of the argument parser. *)
Definition default_args : Args := {|
  keys := []; base := "ori_por";
  fuzzy := None; fuzzy_property := "name"; fuzzy_limit := 85 # 100;
  exact := None; exact_property := "__id__";
  near := None; near_limit := 50;
  closest := None; closest_limit := 10;
  trep := None; trep_format := "S";
  without_grid := false; quiet := false; verbose := false;
  omit := []; show := []; limit := None; update := false
|}.

(** ** The colour rotation *)

Module RotatingColors.

Record t := { _availables : list Color; _current : nat }.

Definition init : t := {|
  _availables := [("cyan", None, []); ("white", Some "on_grey", [])];
  _current := 0
|}.

(** We increase the current color. *)
Definition next (c : t) : t :=
  let cur := S (_current c) in
  {| _availables := _availables c;
     _current := if (cur =? length (_availables c))%nat then 0%nat else cur |}.

(** Get current color. *)
Definition get (c : t) : Color :=
  nth (_current c) (_availables c) ("", None, []).

(** Get special emphasized color. *)
Definition getEmph : Color := ("white", Some "on_blue", []).

(** Get special header color. *)
Definition getHeader : Color := ("red", None, []).

End RotatingColors.

(** ** The launcher *)

(** The argument of [error]: the error type and its arguments. *)
Inductive error_name :=
| err_trep_support
| err_geocode_support (data : string)
| err_base (b : string) (bases : list string)
| err_property (p data : string) (flds : list string)
| err_field (f data : string) (flds : list string)
| err_geocode_format (u : string)
| err_geocode_unknown (u : string).

(** ['%-15s' % s] on a byte string. *)
Definition ljust15 (s : string) : string :=
  s ++ string_of_list_ascii (replicate (15 - String.length s)%nat " "%char).

(** Column width: [min(40, max(25, int(W / float(n+1))))].  The float
    quotient truncated by [int] is the integer quotient rounded towards
    zero. *)
Definition display_lim (W : Z) (n : nat) : Z :=
  Z.min 40 (Z.max 25 (W ÷ (Z.of_nat n + 1))).

(** Keeping only keys in intermediate search; [res] is never [None]. *)
Definition ex_keys (res : list (Q * Key)) : option (list Key) :=
  Some (map snd res).

Section Launcher.

Context {rt : Runtime}.

(** This gives terminal size information using external command stty. *)
Definition getTermSize (env : Env) : M (list Z) :=
  let size := stty_size env in
  if bool_decide (size = "") then mret [80; 160]
  else match mapM py_int (Py.split_ws size) with
       | Some t => mret t
       | None => raise ValueError
       end.

(** [t[i]] on a tuple. *)
Definition index {A} (t : list A) (i : nat) : M A :=
  match t !! i with
  | Some x => mret x
  | None => raise IndexError
  end.

(** Display a string in the terminal with a fixed width. *)
Definition fixed_width (s : string) (col : Color) (lim : Z)
    (truncate : option Z) : M string :=
  let truncate :=
    match truncate with
    | None => 1000
    | Some t => t
    end in
  (* printer = '%%-%ss' % lim: repeated '-' flags, then the width *)
  let printer := Py.ljust (Z.to_nat (Z.abs lim)) in
  match Py.utf8_decode s with
  | None => raise UnicodeDecodeError
  | Some u =>
      let s := Py.slice_to u truncate in
      let s := Py.utf8_encode (printer s) in
      mret (colored s col)
  end.

(** The rows of the table: one per field of [show] not in [omit]. *)
Fixpoint display_loop (geob : GeoBase) (list_of_things : list (Q * Key))
    (omit important : gset string) (lim : Z) (truncate : option Z)
    (show : list string) (c : RotatingColors.t) : M unit :=
  match show with
  | [] => mret tt
  | f :: show' =>
      if bool_decide (f ∈ omit)
      then display_loop geob list_of_things omit important lim truncate show' c
      else
        let col :=
          if bool_decide (f ∈ important) then RotatingColors.getEmph
          else RotatingColors.get c in
        (if bool_decide (f = "__ref__") then
           (s ← fixed_width f RotatingColors.getHeader lim truncate;
            write_out (nl ++ s));;
           for_ list_of_things (λ '(h, _),
             s ← fixed_width (Py.fmt3 h) RotatingColors.getHeader lim truncate;
             write_out s)
         else
           (s ← fixed_width f col lim truncate;
            write_out (nl ++ s));;
           for_ list_of_things (λ '(_, k),
             s ← fixed_width (get geob k f) col lim truncate;
             write_out s));;
        display_loop geob list_of_things omit important lim truncate show'
          (RotatingColors.next c)
  end.

(** Main display function in Linux terminal. *)
Definition display (env : Env) (geob : GeoBase)
    (list_of_things : list (Q * Key)) (omit : gset string)
    (show : list string) (important : gset string) : M unit :=
  match list_of_things with
  | [] => write_out (nl ++ "No elements to display." ++ nl)
  | _ =>
      let show :=
        match show with
        | [] => "__ref__" :: fields geob
        | _ => show
        end in
      let n := length list_of_things in
      size ← getTermSize env;
      W ← index size 1;
      let lim := display_lim W n in
      let truncate := if (n =? 1)%nat then None else Some lim in
      let c := RotatingColors.init in
      display_loop geob list_of_things omit important lim truncate show c;;
      write_out nl
  end.

(** The cells of one line of the quiet output. *)
Fixpoint quiet_cells (geob : GeoBase) (omit : gset string) (h : Q) (k : Key)
    (show : list string) : list string :=
  match show with
  | [] => []
  | f :: show' =>
      if bool_decide (f ∈ omit) then quiet_cells geob omit h k show'
      else (if bool_decide (f = "__ref__") then Py.fmt3 h else get geob k f)
             :: quiet_cells geob omit h k show'
  end.

(** Display of the results in programming mode, with --quiet. *)
Definition display_quiet (geob : GeoBase) (list_of_things : list (Q * Key))
    (omit : gset string) (show : list string) : M unit :=
  let show :=
    match show with
    | [] => "__ref__" :: fields geob
    | _ => show
    end in
  for_ list_of_things (λ '(h, k),
    if negb (contains geob k) then mret tt
    else
      let l := quiet_cells geob omit h k show in
      write_out (Py.join "^" l ++ nl)).

(** Some formatting for help, on [sys.stderr]. *)
Fixpoint display_on_two_cols (a_list : list string) : M unit :=
  match a_list with
  | a :: b :: rest =>
      print_err (tab ++ ljust15 a ++ tab ++ ljust15 b);;
      display_on_two_cols rest
  | [a] => print_err (tab ++ ljust15 a)
  | [] => mret tt
  end.

(** Display a warning on stderr: [warn('key', k, data, source)]. *)
Definition warn_key (k data source : string) : M unit :=
  print_err ("/!\ Key " ++ k ++ " was not in GeoBase, for data " ++ dq
             ++ data ++ dq ++ " and source " ++ source).

(** Display an error on stderr, then exit. *)
Definition error {A} (name : error_name) : M A :=
  match name with
  | err_trep_support =>
      print_err (nl ++ "/!\ No opentrep support. Check if opentrep wrapper can import libpyopentrep.")
  | err_geocode_support data =>
      print_err (nl ++ "/!\ No geocoding support for data type " ++ data ++ ".")
  | err_base b bases =>
      print_err (nl ++ "/!\ Wrong base " ++ dq ++ b ++ dq ++ ". You may select:");;
      display_on_two_cols bases
  | err_property p data flds =>
      print_err (nl ++ "/!\ Wrong property " ++ dq ++ p ++ dq ++ ".");;
      print_err ("For data type " ++ data ++ ", you may select:");;
      display_on_two_cols flds
  | err_field f data flds =>
      print_err (nl ++ "/!\ Wrong field " ++ dq ++ f ++ dq ++ ".");;
      print_err ("For data type " ++ data ++ ", you may select:");;
      display_on_two_cols flds
  | err_geocode_format u =>
      print_err (nl ++ "/!\ Bad geocode format: " ++ u)
  | err_geocode_unknown u =>
      print_err (nl ++ "/!\ Geocode was unknown for " ++ u)
  end;;
  exit 1.

(** [tuple(float(l) for l in u_input.strip('()').split(','))]; [None] when
    a token raises [ValueError]. *)
Definition parse_coords (u_input : string) : option (list Q) :=
  mapM py_float (Py.split ","%char (Py.strip ["("%char; ")"%char] u_input)).

(** Interpret the argument as either coordinates (lat, lng) or a key. *)
Definition scan_coords (u_input : string) (geob : GeoBase) (verbose : bool) :
    M (list Q) :=
  match parse_coords u_input with
  | None =>
      (* Scan coordinates failed, perhaps input was key *)
      when (negb (contains geob u_input))
        (warn_key u_input (_data geob) (_source geob);; exit 1);;
      match getLocation geob u_input with
      | None => error (err_geocode_unknown u_input)
      | Some coords => mret coords
      end
  | Some coords =>
      when (bool_decide (length coords ≠ 2%nat))
        (error (err_geocode_format u_input));;
      when verbose
        match coords with
        | [lat; lng] =>
            print ("Geocode recognized: (" ++ Py.fmt3 lat ++ ", "
                   ++ Py.fmt3 lng ++ ")")
        | _ => raise TypeError
        end;;
      mret coords
  end.

(** *** [main], block by block *)

(** ARGUMENTS: the limit on the number of results. *)
Definition get_limit (args : Args) : M (option Z) :=
  match limit args with
  | None =>
      (* Limit was not set by user *)
      if quiet args then mret None else mret (Some 4)
  | Some s =>
      match py_int s with
      | Some n => mret (Some n)
      | None => raise ValueError
      end
  end.

(** FAILING: lack of support, wrong headers, unknown fields. *)
Definition failing (args : Args) (g : GeoBase) : M unit :=
  when (bool_decide (trep args ≠ None))
    (when (negb (hasTrepSupport g)) (error err_trep_support));;
  when (bool_decide (near args ≠ None) || bool_decide (closest args ≠ None))
    (when (negb (hasGeoSupport g)) (error (err_geocode_support (base args))));;
  when (bool_decide (exact args ≠ None))
    (when (bool_decide (exact_property args ∉ fields g))
       (error (err_property (exact_property args) (base args) (fields g))));;
  when (bool_decide (fuzzy args ≠ None))
    (when (bool_decide (fuzzy_property args ∉ fields g))
       (error (err_property (fuzzy_property args) (base args) (fields g))));;
  for_ (show args ++ omit args)%list (λ field,
    when (bool_decide (field ∉ "__ref__" :: fields g))
      (error (err_field field (base args) ("__ref__" :: fields g)))).

(** MAIN: we start from either all keys available or keys listed by user
    or from stdin if there is input. *)
Definition initial_res (env : Env) (args : Args) (g : GeoBase) :
    list (Q * Key) :=
  if negb (stdin_isatty env) then
    Py.enumerate
      (flat_map (λ row, Py.split_ws (Py.strip Py.whitespace row))
         (stdin_rows env))
  else
    match keys args with
    | _ :: _ => Py.enumerate (keys args)
    | [] => Py.enumerate (iter_keys g)
    end.

(** MAIN: we are going to chain conditions, [res] holds intermediate
    results.  [log_call] notes each search, the restriction it is given and
    the stream it leaves in [res], in the ghost trace. *)
Definition run_stages (args : Args) (g : GeoBase) (res : list (Q * Key)) :
    M (list (Q * Key)) :=
  let with_grid := negb (without_grid args) in
  let verbose := negb (quiet args) in
  res ←
    match trep args with
    | Some t =>
        when verbose
          (print ("Applying opentrep on " ++ dq ++ Py.join " " t ++ dq
                  ++ " [output " ++ trep_format args ++ "]"));;
        let from_keys := ex_keys res in
        let res := trepGet g (Py.join " " t) (trep_format args) from_keys
                     verbose in
        log_call (StageCall TextSearch from_keys res);;
        mret res
    | None => mret res
    end;
  res ←
    match exact args with
    | Some e =>
        when verbose
          (print ("Applying property " ++ exact_property args ++ " = "
                  ++ dq ++ e ++ dq));;
        let from_keys := ex_keys res in
        let res := Py.enumerate
                     (getKeysWhere g (exact_property args) e from_keys) in
        log_call (StageCall ExactMatch from_keys res);;
        mret res
    | None => mret res
    end;
  res ←
    match near args with
    | Some u =>
        when verbose
          (print ("Applying near " ++ str_float (near_limit args) ++ " kms"));;
        coords ← scan_coords u g verbose;
        let from_keys := ex_keys res in
        let res := Py.sorted
                     (findNearPoint g coords (near_limit args) with_grid
                        from_keys) in
        log_call (StageCall RadiusSearch from_keys res);;
        mret res
    | None => mret res
    end;
  res ←
    match closest args with
    | Some u =>
        when verbose
          (print ("Applying closest " ++ pretty (closest_limit args)));;
        coords ← scan_coords u g verbose;
        let from_keys := ex_keys res in
        let res := findClosestFromPoint g coords (closest_limit args)
                     with_grid from_keys in
        log_call (StageCall NearestNSearch from_keys res);;
        mret res
    | None => mret res
    end;
  match fuzzy args with
  | Some f =>
      when verbose
        (print ("Applying property " ++ fuzzy_property args ++ " ~ "
                ++ dq ++ f ++ dq));;
      let from_keys := ex_keys res in
      let res := fuzzyGet g f (fuzzy_property args) (fuzzy_limit args)
                   from_keys in
      log_call (StageCall FuzzyMatch from_keys res);;
      mret res
  | None => mret res
  end.

(** DISPLAY: keeping only limit first results. *)
Definition limiter (limit : option Z) (res : list (Q * Key)) :
    list (Q * Key) :=
  match limit with
  | Some n => Py.slice_to res n
  | None => res
  end.

(** DISPLAY: warning about, then removing, unknown keys. *)
Definition remove_unknown (g : GeoBase) (res : list (Q * Key)) :
    M (list (Q * Key)) :=
  for_ res (λ '(h, k),
    when (negb (contains g k)) (warn_key k (_data g) (_source g)));;
  mret (List.filter (λ '(h, k), contains g k) res).

(** DISPLAY: highlighting some rows. *)
Definition important_fields (args : Args) : gset string :=
  let important : gset string := {["__id__"]} in
  let important :=
    match exact args with
    | Some _ => important ∪ {[exact_property args]}
    | None => important
    end in
  match fuzzy args with
  | Some _ => important ∪ {[fuzzy_property args]}
  | None => important
  end.

Definition main (env : Env) (args : Args) : M unit :=
  (* ARGUMENTS *)
  let verbose_ := negb (quiet args) in
  let warnings := verbose args in
  limit ← get_limit args;
  (* CREATION *)
  when (bool_decide (base args ∉ BASES env))
    (error (err_base (base args) (BASES env)));;
  (* Updating file: GeoBase.update() works on the source file of the store,
     then exit() *)
  when (update args) (exit 0);;
  when verbose_ (print "Loading GeoBase...");;
  let g := open_base env (base args) warnings in
  (* FAILING *)
  failing args g;;
  (* MAIN *)
  when verbose_
    (if negb (stdin_isatty env) then
       print "Looking for matches from stdin..."
     else
       match keys args with
       | _ :: _ =>
           print ("Looking for matches from " ++ Py.join ", " (keys args)
                  ++ "...")
       | [] => print "Looking for matches from *all* data..."
       end);;
  res ← run_stages args g (initial_res env args g);
  (* DISPLAY *)
  let res := limiter limit res in
  res ← remove_unknown g res;
  let important := important_fields args in
  if verbose_ then
    display env g res (list_to_set (omit args)) (show args) important;;
    print (nl ++ "Done in " ++ elapsed env)
  else
    display_quiet g res (list_to_set (omit args)) (show args).

End Launcher.

(** ** Observations on the renderers

    The table has one row per displayed field; [row_styles] lists the rows
    in order with the style each is written in, and [write_row] is what
    [display] writes for one row. *)

Fixpoint row_styles (important : gset string) (shown : list string)
    (c : RotatingColors.t) : list (string * Color) :=
  match shown with
  | [] => []
  | f :: shown' =>
      (f, if bool_decide (f = "__ref__") then RotatingColors.getHeader
          else if bool_decide (f ∈ important) then RotatingColors.getEmph
          else RotatingColors.get c)
        :: row_styles important shown' (RotatingColors.next c)
  end.

Definition write_row {rt : Runtime} (geob : GeoBase)
    (list_of_things : list (Q * Key)) (lim : Z) (truncate : option Z)
    (row : string * Color) : M unit :=
  let '(f, col) := row in
  (s ← fixed_width f col lim truncate; write_out (nl ++ s));;
  for_ list_of_things (λ '(h, k),
    s ← fixed_width (if bool_decide (f = "__ref__") then Py.fmt3 h
                     else get geob k f) col lim truncate;
    write_out s).

(** The value of one cell of the quiet output. *)
Definition quiet_cell (geob : GeoBase) (h : Q) (k : Key) (f : string) : string :=
  if bool_decide (f = "__ref__") then Py.fmt3 h else get geob k f.

(** The fields left by --omit. *)
Definition not_omitted (omit : gset string) (show : list string) : list string :=
  List.filter (λ f, negb (bool_decide (f ∈ omit))) show.

(** The line that [warn('key', ...)] writes for the key [k]. *)
Definition key_warning (g : GeoBase) (k : Key) : string :=
  ("/!\ Key " ++ k ++ " was not in GeoBase, for data " ++ dq ++ _data g ++ dq
   ++ " and source " ++ _source g) ++ nl.


(** The keys a run starts from: the tokens of the piped input, else the
    keys of the command line, else all the keys of the store. *)
Definition input_keys (env : Env) (args : Args) (g : GeoBase) : list Key :=
  if negb (stdin_isatty env) then
    flat_map (λ row, Py.split_ws (Py.strip Py.whitespace row)) (stdin_rows env)
  else
    match keys args with
    | _ :: _ => keys args
    | [] => iter_keys g
    end.

(** The states of the colour rotation: the two-entry palette and an index
    into it. *)
Definition palette_ok (c : RotatingColors.t) : Prop :=
  RotatingColors._availables c
  = RotatingColors._availables RotatingColors.init
  /\ (RotatingColors._current c < 2)%nat.

(** ** The words of the specification *)

(** clamp(x, lo, hi). *)
Definition clamp (x lo hi : Z) : Z :=
  if x <? lo then lo else if hi <? x then hi else x.

(** The stages a command line enables, in the priority order of the
    pipeline composer. *)
Definition enabled (args : Args) (s : stage) : bool :=
  match s with
  | TextSearch => bool_decide (trep args ≠ None)
  | ExactMatch => bool_decide (exact args ≠ None)
  | RadiusSearch => bool_decide (near args ≠ None)
  | NearestNSearch => bool_decide (closest args ≠ None)
  | FuzzyMatch => bool_decide (fuzzy args ≠ None)
  end.

Definition stage_priority : list stage :=
  [TextSearch; ExactMatch; RadiusSearch; NearestNSearch; FuzzyMatch].

Definition enabled_stages (args : Args) : list stage :=
  List.filter (enabled args) stage_priority.






(** ** Further observations *)

(** [l[::2]]: every other element, from the first; [l[1::2]] is
    [every_other (tail l)]. *)
Fixpoint every_other {A} (l : list A) : list A :=
  match l with
  | x :: _ :: l' => x :: every_other l'
  | _ => l
  end.

(** The lines of [display_on_two_cols], as the source builds them: one for
    each pair of [zip(a_list[::2], a_list[1::2])], then one for the last
    element alone when the length is odd. *)
Definition two_cols_lines (a_list : list string) : list string :=
  app
    (map (λ p : string * string,
            (tab ++ ljust15 p.1 ++ tab ++ ljust15 p.2) ++ nl)
       (zip (every_other a_list) (every_other (tail a_list))))
    (if Nat.odd (length a_list)
     then match last a_list with
          | Some x => [(tab ++ ljust15 x) ++ nl]
          | None => []
          end
     else []).

(** The fields a renderer goes through: those of --show or, without it,
    __ref__ and the fields of the store. *)
Definition effective_show (geob : GeoBase) (show : list string) : list string :=
  match show with
  | [] => "__ref__" :: fields geob
  | _ => show
  end.

(** One line of the quiet output. *)
Definition quiet_line (geob : GeoBase) (omit : gset string)
    (show : list string) (hk : Q * Key) : string :=
  Py.join "^"
    (map (quiet_cell geob hk.1 hk.2)
       (not_omitted omit (effective_show geob show))) ++ nl.

(** The byte strings of one row of the table: the field name, then the
    value of each result. *)
Definition row_values (geob : GeoBase) (things : list (Q * Key))
    (f : string) : list string :=
  f :: map (λ '(h, k), if bool_decide (f = "__ref__") then Py.fmt3 h
                       else get geob k f) things.

(** The characters [fixed_width] leaves in a cell, for a value that
    decodes to [u]. *)
Definition cell_chars (u : Py.ustring) (lim : Z) (truncate : option Z) :
    Py.ustring :=
  Py.ljust (Z.to_nat (Z.abs lim)) (Py.slice_to u (default 1000 truncate)).

(** The chunk [fixed_width] returns for a value that decodes. *)
Definition cell_text {rt : Runtime} (s : string) (col : Color) (lim : Z)
    (truncate : option Z) : string :=
  colored
    (Py.utf8_encode
       (cell_chars (default [] (Py.utf8_decode s)) lim truncate)) col.

(** The chunks of one row of the table. *)
Definition row_chunks {rt : Runtime} (geob : GeoBase)
    (things : list (Q * Key)) (lim : Z) (truncate : option Z)
    (row : string * Color) : list string :=
  match map (λ s, cell_text s row.2 lim truncate)
          (row_values geob things row.1) with
  | label :: cells => (nl ++ label) :: cells
  | [] => []
  end.

(** The UTF-8 decoder as CPython 2 has it: like the one of RFC 3629, but
    the three-byte forms of the surrogates U+D800..U+DFFF pass.  [None] is
    a byte string that every UTF-8 decoder refuses. *)
Fixpoint utf8_decode_cpython2 (bs : list N) : option Py.ustring :=
  match bs with
  | [] => Some []
  | b0 :: r0 =>
      if (b0 <? 0x80)%N then cons b0 <$> utf8_decode_cpython2 r0
      else if (b0 <? 0xC2)%N then None
      else if (b0 <? 0xE0)%N then
        match r0 with
        | b1 :: r1 =>
            if Py.is_cont b1
            then cons ((b0 - 0xC0) * 64 + (b1 - 0x80))%N
                   <$> utf8_decode_cpython2 r1
            else None
        | _ => None
        end
      else if (b0 <? 0xF0)%N then
        match r0 with
        | b1 :: b2 :: r2 =>
            let c := ((b0 - 0xE0) * 4096 + (b1 - 0x80) * 64 + (b2 - 0x80))%N in
            if Py.is_cont b1 && Py.is_cont b2 && negb (c <? 0x800)%N
            then cons c <$> utf8_decode_cpython2 r2
            else None
        | _ => None
        end
      else if (b0 <? 0xF5)%N then
        match r0 with
        | b1 :: b2 :: b3 :: r3 =>
            let c := ((b0 - 0xF0) * 262144 + (b1 - 0x80) * 4096
                      + (b2 - 0x80) * 64 + (b3 - 0x80))%N in
            if Py.is_cont b1 && Py.is_cont b2 && Py.is_cont b3
               && negb (c <? 0x10000)%N && (c <? 0x110000)%N
            then cons c <$> utf8_decode_cpython2 r3
            else None
        | _ => None
        end
      else None
  end.

(** The byte strings that [s.decode('utf8')] accepts, and the rows made
    of such strings only. *)
Definition decodable (s : string) : bool :=
  bool_decide (is_Some (Py.utf8_decode s)).

Definition row_decodable (geob : GeoBase) (things : list (Q * Key))
    (f : string) : bool :=
  forallb decodable (row_values geob things f).

(** The order of a stream by score. *)
Definition by_score (x y : Q * Key) : Prop := (x.1 <= y.1)%Q.

(** What the FAILING block of [main] checks. *)
Definition validated (args : Args) (g : GeoBase) : Prop :=
  (trep args <> None -> hasTrepSupport g = true)
  /\ (near args <> None \/ closest args <> None -> hasGeoSupport g = true)
  /\ (exact args <> None -> exact_property args ∈ fields g)
  /\ (fuzzy args <> None -> fuzzy_property args ∈ fields g)
  /\ Forall (λ f, f ∈ "__ref__" :: fields g) (show args ++ omit args).

(** ** A small world to run the launcher in *)

Module Example.

Definition digit (a : ascii) : option Z :=
  let n := Z.of_N (N_of_ascii a) in
  if (48 <=? n) && (n <=? 57) then Some (n - 48) else None.

(** Decimal digits, most significant first. *)
Fixpoint digits (acc : Z) (s : list ascii) : option Z :=
  match s with
  | [] => Some acc
  | a :: s' => d ← digit a; digits (10 * acc + d) s'
  end.

Definition unsigned (s : list ascii) : option Z :=
  match s with
  | [] => None
  | _ => digits 0 s
  end.

Definition signed {A} (f : list ascii -> option A) (neg : A -> A)
    (s : string) : option A :=
  match list_ascii_of_string s with
  | "-"%char :: s' => neg <$> f s'
  | s' => f s'
  end.

(** Decimal integers. *)
Definition int (s : string) : option Z := signed unsigned Z.opp s.

(** Decimal numbers [ddd] and [ddd.ddd]. *)
Definition decimal (s : list ascii) : option Q :=
  match Py.split "."%char (string_of_list_ascii s) with
  | [i] => inject_Z <$> unsigned (list_ascii_of_string i)
  | [i; f] =>
      n ← unsigned (list_ascii_of_string (i ++ f));
      Some (Qred (n # Pos.pow 10 (Pos.of_nat (String.length f))))
  | _ => None
  end.

Definition float (s : string) : option Q := signed decimal Qopp s.

(** termcolor: the SGR codes of the styles of the launcher. *)
Definition sgr (n : string) (s : string) : string :=
  String "027"%char ("[" ++ n ++ "m" ++ s).

Definition termcolor (s : string) (col : Color) : string :=
  let '(color, on_color, _) := col in
  let s := sgr (if bool_decide (color = "cyan") then "36"
                else if bool_decide (color = "red") then "31" else "37") s in
  let s := match on_color with
           | Some h => sgr (if bool_decide (h = "on_blue") then "44" else "40") s
           | None => s
           end in
  s ++ String "027"%char "[0m".

#[export] Instance runtime : Runtime := {|
  py_float := float;
  py_int := int;
  str_float := Py.fmt3;
  colored := termcolor
|}.

(** A store of two airports. *)
Definition records : list (Key * (string * string * list Q)) :=
  [("ORY", ("Paris-Orly", "PAR", [48725278 # 1000000; 2359444 # 1000000]));
   ("CDG", ("Paris-Charles-de-Gaulle", "PAR",
            [49012779 # 1000000; 2550000 # 1000000]))].

Definition record (k : Key) : option (string * string * list Q) :=
  snd <$> find (λ r, bool_decide (r.1 = k)) records.

Definition field_of (k : Key) (f : string) : string :=
  match record k with
  | Some (name, city, _) =>
      if bool_decide (f = "__id__") then k
      else if bool_decide (f = "name") then name
      else if bool_decide (f = "city_code") then city
      else ""
  | None => ""
  end.

Definition restrict (from_keys : option (list Key)) : list Key :=
  match from_keys with
  | Some ks => List.filter (λ k, bool_decide (is_Some (record k))) ks
  | None => map fst records
  end.

Definition airports : GeoBase := {|
  fields := ["__id__"; "name"; "city_code"];
  _data := "airports";
  _source := "airports.csv";
  contains := λ k, bool_decide (is_Some (record k));
  iter_keys := map fst records;
  get := field_of;
  getLocation := λ k, r ← record k; Some r.2;
  hasTrepSupport := false;
  hasGeoSupport := true;
  trepGet := λ _ _ _ _, [];
  getKeysWhere := λ p v from_keys,
    List.filter (λ k, bool_decide (field_of k p = v)) (restrict from_keys);
  findNearPoint := λ _ _ _ from_keys, map (λ k, (0%Q, k)) (restrict from_keys);
  findClosestFromPoint := λ _ N _ from_keys,
    take (Z.to_nat N) (map (λ k, (0%Q, k)) (restrict from_keys));
  fuzzyGet := λ v p _ from_keys,
    map (λ k, (1%Q, k))
      (List.filter (λ k, bool_decide (field_of k p = v)) (restrict from_keys))
|}.

Definition env : Env := {|
  BASES := ["ori_por"; "airports"];
  open_base := λ _ _, airports;
  stdin_isatty := true;
  stdin_rows := [];
  stty_size := "24 80";
  elapsed := "0:00:00.010000"
|}.

(** The command line [--base airports keys...] with some of the options
    [--trep], [--exact], [--near], [--closest], [--fuzzy], [--quiet],
    [--show], [--limit]. *)
Definition cli (ks : list string) (t : option (list string))
    (e n c f : option string) (q : bool) (sh : list string)
    (l : option string) : Args := {|
  keys := ks; base := "airports";
  fuzzy := f; fuzzy_property := "name"; fuzzy_limit := 85 # 100;
  exact := e; exact_property := "__id__";
  near := n; near_limit := 50;
  closest := c; closest_limit := 10;
  trep := t; trep_format := "S";
  without_grid := false; quiet := q; verbose := false;
  omit := []; show := sh; limit := l; update := false
|}.

(** A store with one record, whose alternate names take 1001
    characters. *)
Definition long_names : string :=
  string_of_list_ascii (replicate 1001 "a"%char).

Definition gazetteer : GeoBase := {|
  fields := ["alt_names"];
  _data := "cities";
  _source := "cities.csv";
  contains := λ k, bool_decide (k = "PAR");
  iter_keys := ["PAR"];
  get := λ k f,
    if bool_decide (k = "PAR") && bool_decide (f = "alt_names")
    then long_names else "";
  getLocation := λ _, None;
  hasTrepSupport := false;
  hasGeoSupport := false;
  trepGet := λ _ _ _ _, [];
  getKeysWhere := λ _ _ _, [];
  findNearPoint := λ _ _ _ _, [];
  findClosestFromPoint := λ _ _ _ _, [];
  fuzzyGet := λ _ _ _ _, []
|}.

(** The name Orléans, encoded in UTF-8: the fourth character takes the
    two bytes C3 A9. *)
Definition orleans : string :=
  "Orl" ++ String "195"%char (String "169"%char "ans").

(** A store whose one name is in Latin-1, not in UTF-8: the byte E9
    stands alone. *)
Definition latin1 : GeoBase := {|
  fields := ["name"];
  _data := "cities";
  _source := "cities.csv";
  contains := λ k, bool_decide (k = "ORL");
  iter_keys := ["ORL"];
  get := λ k f,
    if bool_decide (k = "ORL") && bool_decide (f = "name")
    then "Orl" ++ String "233"%char "ans" else "";
  getLocation := λ _, None;
  hasTrepSupport := false;
  hasGeoSupport := false;
  trepGet := λ _ _ _ _, [];
  getKeysWhere := λ _ _ _, [];
  findNearPoint := λ _ _ _ _, [];
  findClosestFromPoint := λ _ _ _ _, [];
  fuzzyGet := λ _ _ _ _, []
|}.

(** The command line [--base b --limit l] with or without [--update]. *)
Definition cli_base (b : string) (l : option string) (u : bool) : Args := {|
  keys := []; base := b;
  fuzzy := None; fuzzy_property := "name"; fuzzy_limit := 85 # 100;
  exact := None; exact_property := "__id__";
  near := None; near_limit := 50;
  closest := None; closest_limit := 10;
  trep := None; trep_format := "S";
  without_grid := false; quiet := false; verbose := false;
  omit := []; show := []; limit := l; update := u
|}.

End Example.

(** * Part II: properties *)

(** Unfolding of the monad, to run a computation on a world. *)
Ltac run :=
  unfold mbind, M_bind, mret, M_ret, when, print, print_err, write_out,
    write_err, log_call, exit, raise in *; simpl in *.

(** ** The UTF-8 codec *)

Section Codec.

Import Py.

Ltac arith := zify; Z.to_euclidean_division_equations; lia.

Ltac split_tests :=
  repeat match goal with
    | |- context [N.ltb ?a ?b] =>
        destruct (N.ltb_spec a b); try (exfalso; arith)
    | |- context [N.leb ?a ?b] =>
        destruct (N.leb_spec a b); try (exfalso; arith)
    end.

Lemma bytes_of_of_bytes (l : list N) :
  Forall (λ b, (b < 256)%N) l -> bytes_of (of_bytes l) = l.
Proof.
  unfold bytes_of, of_bytes. rewrite list_ascii_of_string_of_list_ascii.
  induction 1 as [|b l Hb _ IH]; simpl; [done|].
  by rewrite N_ascii_embedding, IH.
Qed.

Lemma utf8_encode_char_bytes (c : N) :
  (c < 0x110000)%N -> Forall (λ b, (b < 256)%N) (utf8_encode_char c).
Proof.
  intros Hc. unfold utf8_encode_char.
  split_tests; repeat constructor; arith.
Qed.

Lemma scalar_bound (c : N) : scalar c -> (c < 0x110000)%N.
Proof. unfold scalar. lia. Qed.

Lemma utf8_decode_encode_char (c : N) (bs : list N) :
  scalar c ->
  utf8_decode_bytes (utf8_encode_char c ++ bs)
  = cons c <$> utf8_decode_bytes bs.
Proof.
  intros Hc. unfold utf8_encode_char, scalar in *.
  destruct (N.ltb_spec c 0x80) as [H1|H1].
  { simpl. destruct (N.ltb_spec c 0x80); [done|lia]. }
  destruct (N.ltb_spec c 0x800) as [H2|H2];
    [|destruct (N.ltb_spec c 0x10000) as [H3|H3]];
    cbn [app utf8_decode_bytes]; unfold is_cont; cbv zeta;
    split_tests; cbn [andb negb]; do 2 f_equal; arith.
Qed.

Lemma utf8_decode_encode (u : ustring) :
  Forall scalar u -> utf8_decode (utf8_encode u) = Some u.
Proof.
  intros Hu. unfold utf8_decode, utf8_encode.
  rewrite bytes_of_of_bytes.
  - induction Hu as [|c u Hc _ IH]; [done|].
    cbn [flat_map]. by rewrite utf8_decode_encode_char, IH.
  - induction Hu as [|c u Hc _ IH]; [constructor|].
    cbn [flat_map]. apply Forall_app. split; [|done].
    by apply utf8_encode_char_bytes, scalar_bound.
Qed.

Ltac tests_in H :=
  unfold is_cont in H;
  repeat first
    [ rewrite andb_true_iff in H
    | rewrite negb_true_iff in H
    | rewrite andb_false_iff in H
    | rewrite N.ltb_lt in H
    | rewrite N.ltb_ge in H
    | rewrite N.leb_le in H
    | rewrite N.leb_gt in H ].

Lemma utf8_decode_bytes_scalar (n : nat) (bs : list N) (u : ustring) :
  (length bs <= n)%nat ->
  utf8_decode_bytes bs = Some u -> Forall scalar u.
Proof.
  revert bs u. induction n as [|n IH]; intros bs u Hlen Hdec.
  { destruct bs; [|simpl in Hlen; lia]. simpl in Hdec. by simplify_eq. }
  destruct bs as [|b0 r0]; [simpl in Hdec; simplify_eq; constructor|].
  cbn [utf8_decode_bytes] in Hdec. cbv zeta in Hdec.
  repeat case_match; try discriminate; subst;
    apply fmap_Some in Hdec as (u' & Hu' & ->);
    (constructor;
     [ unfold scalar;
       repeat match goal with H : _ = true |- _ => tests_in H end;
       repeat match goal with H : _ = false |- _ => tests_in H end;
       arith
     | eapply IH; [|exact Hu']; simpl in Hlen |- *; lia ]).
Qed.

Lemma utf8_decode_scalar (s : string) (u : ustring) :
  utf8_decode s = Some u -> Forall scalar u.
Proof. intros Hu. by eapply utf8_decode_bytes_scalar. Qed.

End Codec.

(** ** The width calculator and [fixed_width] *)

Section Width.

Context {rt : Runtime}.

Lemma fixed_width_decoded (s : string) (col : Color) (lim : Z)
    (truncate : option Z) (u : Py.ustring) (w : world) :
  Py.utf8_decode s = Some u ->
  fixed_width s col lim truncate w
  = (Ret (colored
            (Py.utf8_encode
               (Py.ljust (Z.to_nat (Z.abs lim))
                  (Py.slice_to u (default 1000 truncate)))) col), w).
Proof. intros Hu. unfold fixed_width. rewrite Hu. by destruct truncate. Qed.

Lemma fixed_width_undecodable (s : string) (col : Color) (lim : Z)
    (truncate : option Z) (w : world) :
  Py.utf8_decode s = None ->
  fixed_width s col lim truncate w = (Raise UnicodeDecodeError, w).
Proof. intros Hu. unfold fixed_width. by rewrite Hu. Qed.

Lemma ljust_scalar (n : nat) (u : Py.ustring) :
  Forall Py.scalar u -> Forall Py.scalar (Py.ljust n u).
Proof.
  intros Hu. unfold Py.ljust. apply Forall_app. split; [done|].
  apply Forall_replicate. unfold Py.scalar. lia.
Qed.

(** Without a truncation width, a value of at most 1000 characters is
    shown in full. *)
Lemma fixed_width_full_value (s : string) (col : Color) (lim : Z)
    (u : Py.ustring) (w : world) :
  Py.utf8_decode s = Some u ->
  (length u <= 1000)%nat ->
  fixed_width s col lim None w
  = (Ret (colored (Py.utf8_encode (Py.ljust (Z.to_nat (Z.abs lim)) u)) col), w).
Proof.
  intros Hu Hlen. rewrite (fixed_width_decoded _ _ _ _ u) by done.
  unfold Py.slice_to. simpl. rewrite take_ge; [done|lia].
Qed.

(** C5: with truncation active at [width], the cell is the first [width]
    decoded characters of the value, padded with spaces to [width]
    characters; it is re-encoded as valid UTF-8 that decodes to exactly
    these [width] characters, so that no multi-byte character is split. *)
Theorem fixed_width_cuts_characters (s : string) (col : Color) (width : Z)
    (u : Py.ustring) (w : world) :
  Py.utf8_decode s = Some u ->
  0 <= width ->
  let kept := take (Z.to_nat width) u in
  let cell := (kept ++ replicate (Z.to_nat width - length kept) 32%N)%list in
  fixed_width s col width (Some width) w
    = (Ret (colored (Py.utf8_encode cell) col), w)
  /\ Py.utf8_decode (Py.utf8_encode cell) = Some cell
  /\ length cell = Z.to_nat width
  /\ kept `prefix_of` u.
Proof.
  intros Hu Hwidth kept cell.
  assert (Hcell : cell = Py.ljust (Z.to_nat (Z.abs width))
                           (Py.slice_to u (default 1000 (Some width)))).
  { unfold cell, kept, Py.ljust, Py.slice_to. simpl.
    rewrite Z.abs_eq by done.
    by destruct (Z.leb_spec 0 width); [|lia]. }
  split; [|split; [|split]].
  - rewrite Hcell. by apply fixed_width_decoded.
  - apply utf8_decode_encode. unfold cell. apply Forall_app. split.
    + apply Forall_take. by eapply utf8_decode_scalar.
    + apply Forall_replicate. unfold Py.scalar. lia.
  - unfold cell. rewrite length_app, length_replicate.
    assert (length kept <= Z.to_nat width)%nat; [|lia].
    unfold kept. rewrite length_take. lia.
  - apply prefix_take.
Qed.

(** C6: the column width of the table is
    clamp(W / (N + 1), 25, 40), the quotient being the integer one, and
    lies between 25 and 40. *)
Theorem display_lim_is_clamp (W : Z) (N : nat) :
  display_lim W N = clamp (W ÷ (Z.of_nat N + 1)) 25 40
  /\ 25 <= display_lim W N <= 40.
Proof.
  unfold display_lim, clamp.
  destruct (Z.ltb_spec (W ÷ (Z.of_nat N + 1)) 25);
    destruct (Z.ltb_spec 40 (W ÷ (Z.of_nat N + 1))); lia.
Qed.

End Width.

(** ** The pipeline composer *)

Section Pipeline.

Context {rt : Runtime}.





End Pipeline.

(** ** The geocode resolver, unknown keys and the result limiter *)

Section Resolver.

Context {rt : Runtime}.



Lemma for_warn_unknown (g : GeoBase) (res : list (Q * Key)) (w : world) :
  for_ res (λ '(h, k),
    when (negb (contains g k)) (warn_key k (_data g) (_source g))) w
  = (Ret tt,
     World (stdout w)
       (stderr w ++ map (λ hk, key_warning g hk.2)
                      (List.filter (λ '(h, k), negb (contains g k)) res))
       (trace w)).
Proof.
  revert w. induction res as [|[h k] res IH]; intros w.
  - run. rewrite app_nil_r. by destruct w.
  - cbn [for_ List.filter]. unfold mbind, M_bind at 1.
    destruct (contains g k); cbn [negb when].
    + unfold mret, M_ret at 1. apply IH.
    + unfold warn_key, print_err, write_err at 1. rewrite IH. simpl.
      by rewrite <- app_assoc.
Qed.

(** C2, as the code has it: a key of the limited result stream that is
    absent from the store gets one warning on the error stream and is left
    out, and the run goes on to the rendering; an absent key given as the
    geocode of --near or --closest gets the same warning from
    [scan_coords], which then exits with status 1. *)
Theorem unknown_key_handling (g : GeoBase) :
  (forall (res : list (Q * Key)) (w : world),
     remove_unknown g res w
     = (Ret (List.filter (λ '(h, k), contains g k) res),
        World (stdout w)
          (stderr w ++ map (λ hk, key_warning g hk.2)
                         (List.filter (λ '(h, k), negb (contains g k)) res))
          (trace w)))
  /\ (forall (u : string) (verbose : bool) (w : world),
        parse_coords u = None ->
        contains g u = false ->
        scan_coords u g verbose w
        = (Exit 1, World (stdout w) (stderr w ++ [key_warning g u]) (trace w))).
Proof.
  split.
  - intros res w. unfold remove_unknown. unfold mbind, M_bind at 1.
    by rewrite for_warn_unknown.
  - intros u verbose w Hparse Habsent.
    unfold scan_coords. rewrite Hparse, Habsent. unfold warn_key. run. done.
Qed.


End Resolver.

(** ** The renderers *)

Section Renderers.

Context {rt : Runtime}.

Lemma for_ext {A} (l : list A) (f g : A -> M unit) (w : world) :
  (forall x w', f x w' = g x w') -> for_ l f w = for_ l g w.
Proof.
  intros Hfg. revert w. induction l as [|x l IH]; intros w; [done|].
  cbn [for_]. unfold mbind, M_bind. rewrite Hfg.
  destruct (g x w) as [[[]| |] w']; auto.
Qed.

Lemma bind_cong {A B} (m1 m2 : M A) (k1 k2 : A -> M B) (w : world) :
  m1 w = m2 w -> (forall a w', k1 a w' = k2 a w') ->
  (m1 ≫= k1) w = (m2 ≫= k2) w.
Proof.
  intros Hm Hk. unfold mbind, M_bind. rewrite Hm.
  destruct (m2 w) as [[a| |] w']; auto.
Qed.

(** [display] writes the rows of [row_styles], one after the other. *)
Lemma display_loop_rows (geob : GeoBase) (things : list (Q * Key))
    (omit important : gset string) (lim : Z) (truncate : option Z)
    (show : list string) (c : RotatingColors.t) (w : world) :
  display_loop geob things omit important lim truncate show c w
  = for_ (row_styles important (not_omitted omit show) c)
      (write_row geob things lim truncate) w.
Proof.
  revert c w. induction show as [|f show IH]; intros c w; [done|].
  unfold not_omitted in *. cbn [display_loop List.filter].
  destruct (bool_decide (f ∈ omit)); cbn [negb]; [apply IH|].
  cbn [row_styles for_]. apply bind_cong; [|intros; apply IH].
  unfold write_row.
  by destruct (bool_decide (f = "__ref__")).
Qed.

Lemma row_styles_fields (important : gset string) (shown : list string)
    (c : RotatingColors.t) :
  map fst (row_styles important shown c) = shown.
Proof.
  revert c. induction shown as [|f shown IH]; intros c; [done|].
  cbn [row_styles map fst]. by rewrite IH.
Qed.

Lemma next_palette_ok (c : RotatingColors.t) :
  palette_ok c -> palette_ok (RotatingColors.next c).
Proof.
  intros [Hav Hcur]. split; [done|].
  unfold RotatingColors.next. cbn [RotatingColors._current].
  rewrite Hav. destruct (RotatingColors._current c) as [|[|n]]; simpl; lia.
Qed.



Lemma quiet_cells_map (geob : GeoBase) (omit : gset string) (h : Q)
    (k : Key) (show : list string) :
  quiet_cells geob omit h k show
  = map (quiet_cell geob h k) (not_omitted omit show).
Proof.
  unfold not_omitted. induction show as [|f show IH]; [done|].
  cbn [quiet_cells List.filter]. destruct (bool_decide (f ∈ omit));
    cbn [negb map]; by rewrite IH.
Qed.


(** C10: without --show, the table has one row per field of the list
    __ref__ followed by the fields of the store in their order, less the
    omitted ones, and every line of the quiet output has one cell per
    field of the same list, in the same order. *)
Theorem default_field_list (env : Env) (geob : GeoBase) (thing : Q * Key)
    (things : list (Q * Key)) (omit important : gset string) (w : world) :
  let shown := not_omitted omit ("__ref__" :: fields geob) in
  let rows := row_styles important shown RotatingColors.init in
  display env geob (thing :: things) omit [] important w
  = (size ← getTermSize env;
     W ← index size 1;
     let lim := display_lim W (length (thing :: things)) in
     let truncate :=
       if (length (thing :: things) =? 1)%nat then None else Some lim in
     for_ rows (write_row geob (thing :: things) lim truncate);;
     write_out nl) w
  /\ map fst rows = shown
  /\ display_quiet geob (thing :: things) omit [] w
     = for_ (thing :: things) (λ '(h, k),
         if negb (contains geob k) then mret tt
         else write_out (Py.join "^" (map (quiet_cell geob h k) shown) ++ nl))
         w.
Proof.
  intros shown rows. split; [|split].
  - unfold display. apply bind_cong; [done|]. intros size w1.
    apply bind_cong; [done|]. intros W w2.
    apply bind_cong; [|done]. apply display_loop_rows.
  - apply row_styles_fields.
  - unfold display_quiet. apply for_ext. intros [h k] w1.
    by rewrite quiet_cells_map.
Qed.

End Renderers.

(** ** Runs without filter *)

Section NoFilter.

Context {rt : Runtime}.

Lemma enumerate_from_lookup {A} (l : list A) (j : Z) (i : nat) (x : A) :
  l !! i = Some x ->
  Py.enumerate_from j l !! i = Some (inject_Z (j + Z.of_nat i), x).
Proof.
  revert j i. induction l as [|y l IH]; intros j i Hi; [done|].
  destruct i as [|i]; simpl in *.
  - simplify_eq. by rewrite Z.add_0_r.
  - rewrite (IH _ _ Hi). do 3 f_equal. lia.
Qed.

Lemma enumerate_from_keys {A} (l : list A) (j : Z) :
  map snd (Py.enumerate_from j l) = l.
Proof.
  revert j. induction l as [|y l IH]; intros j; [done|].
  simpl. by rewrite IH.
Qed.

Lemma initial_res_enumerate (env : Env) (args : Args) (g : GeoBase) :
  initial_res env args g = Py.enumerate (input_keys env args g).
Proof.
  unfold initial_res, input_keys.
  destruct (stdin_isatty env); simpl; [|done]. by destruct (keys args).
Qed.

Lemma no_stage_enabled (args : Args) :
  enabled_stages args = [] ->
  trep args = None /\ exact args = None /\ near args = None
  /\ closest args = None /\ fuzzy args = None.
Proof.
  unfold enabled_stages, stage_priority, enabled. cbn [List.filter].
  destruct (trep args), (exact args), (near args), (closest args),
    (fuzzy args); simpl; done.
Qed.

(** C1, as the code has it: with no filter stage the stream is the input
    key stream, unchanged and in its order, each key with its position
    0, 1, 2, ... as score, and no search is made; in quiet mode with
    show = [name] and the keys ORY and CDG, both in the store, the output
    is the two lines <name of ORY> and <name of CDG>. *)
Theorem no_filter_stream (env : Env) (args : Args) (g : GeoBase) (w : world) :
  enabled_stages args = [] ->
  run_stages args g (initial_res env args g) w
    = (Ret (Py.enumerate (input_keys env args g)), w)
  /\ map snd (Py.enumerate (input_keys env args g)) = input_keys env args g
  /\ (forall (i : nat) (k : Key),
        input_keys env args g !! i = Some k ->
        Py.enumerate (input_keys env args g) !! i
        = Some (inject_Z (Z.of_nat i), k))
  /\ (quiet args = true -> show args = ["name"] -> omit args = [] ->
      limit args = None -> update args = false ->
      stdin_isatty env = true -> keys args = ["ORY"; "CDG"] ->
      base args ∈ BASES env ->
      g = open_base env (base args) (verbose args) ->
      "name" ∈ fields g ->
      contains g "ORY" = true -> contains g "CDG" = true ->
      main env args w
      = (Ret tt,
         World (stdout w ++ [get g "ORY" "name" ++ nl;
                             get g "CDG" "name" ++ nl])
           (stderr w) (trace w))).
Proof.
  intros Hnone.
  destruct (no_stage_enabled args Hnone) as (Ht & He & Hn & Hc & Hf).
  assert (Hrun : forall res w0, run_stages args g res w0 = (Ret res, w0)).
  { intros res w0. unfold run_stages. by rewrite Ht, He, Hn, Hc, Hf. }
  split; [|split; [|split]].
  - by rewrite Hrun, initial_res_enumerate.
  - apply enumerate_from_keys.
  - intros i k Hi. unfold Py.enumerate.
    by rewrite (enumerate_from_lookup _ 0 i k Hi).
  - intros Hq Hshow Homit Hlimit Hupdate Htty Hkeys Hbase Hg Hname Hory Hcdg.
    unfold main, get_limit, failing.
    rewrite <- Hg, Hlimit, Hq, Hupdate, Hshow, Homit, Ht, He, Hn, Hc, Hf.
    rewrite (bool_decide_false (base args ∉ BASES env)) by tauto.
    assert (Hfield : bool_decide ("name" ∉ "__ref__" :: fields g) = false).
    { apply bool_decide_false. intros Hnot. apply Hnot.
      by apply elem_of_cons; right. }
    run. rewrite Hfield. simpl. rewrite Hrun.
    unfold initial_res. rewrite Htty, Hkeys. simpl.
    unfold remove_unknown, display_quiet. run.
    rewrite Hory, Hcdg. simpl. rewrite Hory, Hcdg. simpl.
    rewrite (bool_decide_false ("name" ∈ (∅ : gset string)))
      by apply not_elem_of_empty.
    run. by rewrite <- app_assoc.
Qed.

End NoFilter.

(** ** The launcher at work on the example world *)

Section Runs.

Import Example.

(** C1 fails on the keys ORY and CDG: without filter the second key has
    score 1, not 0, and in quiet mode with show = [name] the two lines hold
    the names alone, without a score in front. *)
Lemma no_filter_scores_not_zero :
  let args := cli ["ORY"; "CDG"] None None None None None true ["name"] None in
  (run_stages args airports (initial_res env args airports) empty_world).1
    = Ret [(0%Q, "ORY"); (1%Q, "CDG")]
  /\ ~ (1 == 0)%Q
  /\ stdout (main env args empty_world).2
     = ["Paris-Orly" ++ nl; "Paris-Charles-de-Gaulle" ++ nl]
  /\ stdout (main env args empty_world).2
     <> ["0.000^Paris-Orly" ++ nl; "0.000^Paris-Charles-de-Gaulle" ++ nl].
Proof.
  repeat split; try (vm_compute; reflexivity); vm_compute; discriminate.
Qed.

Lemma no_filter_stream_witness :
  main env (cli ["ORY"; "CDG"] None None None None None true ["name"] None)
    empty_world
  = (Ret tt,
     World ["Paris-Orly" ++ nl; "Paris-Charles-de-Gaulle" ++ nl] [] []).
Proof.
  destruct (no_filter_stream env
              (cli ["ORY"; "CDG"] None None None None None true ["name"] None)
              airports empty_world eq_refl) as (_ & _ & _ & Hmain).
  apply Hmain; try reflexivity; repeat constructor.
Defined.

(** C2 fails when the geocode of --near is a key absent from the store:
    the run ends there with exit status 1, nothing rendered. *)
Lemma unknown_geocode_key_aborts :
  let args := cli [] None None (Some "XXX") None None true [] None in
  contains airports "XXX" = false
  /\ main env args empty_world
     = (Exit 1, World [] [key_warning airports "XXX"] []).
Proof. split; vm_compute; reflexivity. Qed.

Lemma unknown_key_handling_witness :
  remove_unknown airports [(0%Q, "ORY"); (1%Q, "XXX"); (2%Q, "CDG")]
    empty_world
  = (Ret [(0%Q, "ORY"); (2%Q, "CDG")],
     World [] [key_warning airports "XXX"] [])
  /\ scan_coords "XXX" airports false empty_world
     = (Exit 1, World [] [key_warning airports "XXX"] []).
Proof.
  destruct (unknown_key_handling airports) as [Hrender Hscan]. split.
  - apply (Hrender [(0%Q, "ORY"); (1%Q, "XXX"); (2%Q, "CDG")] empty_world).
  - apply (Hscan "XXX" false empty_world); reflexivity.
Defined.

(** C4: one result whose value has 1001 characters, on a terminal of 80
    columns: the cell of the table holds the first 1000 characters of
    the value, not the value. *)
Theorem single_result_value_cut :
  String.length (get gazetteer "PAR" "alt_names") = 1001%nat
  /\ display env gazetteer [(0%Q, "PAR")] ∅ ["alt_names"] ∅ empty_world
     = (Ret tt,
        World
          [nl ++ termcolor
                   ("alt_names" ++ string_of_list_ascii (replicate 31 " "%char))
                   ("cyan", None, []);
           termcolor (string_of_list_ascii (replicate 1000 "a"%char))
             ("cyan", None, []);
           nl] [] []).
Proof. split; vm_compute; reflexivity. Qed.

Lemma fixed_width_cuts_characters_witness :
  fixed_width orleans ("cyan", None, []) 4 (Some 4) empty_world
  = (Ret (termcolor ("Orl" ++ String "195"%char (String "169"%char ""))
            ("cyan", None, [])), empty_world).
Proof.
  destruct (fixed_width_cuts_characters orleans ("cyan", None, []) 4
              [79; 114; 108; 233; 97; 110; 115]%N empty_world)
    as [Hcell _]; [reflexivity | lia |].
  exact Hcell.
Defined.



End Runs.

(** ** The colour rotation in the table *)

Section Rotation.

Context {rt : Runtime}.

Lemma next_current (c : RotatingColors.t) :
  palette_ok c ->
  RotatingColors._current (RotatingColors.next c)
  = (1 - RotatingColors._current c)%nat.
Proof.
  intros [Hav Hcur]. unfold RotatingColors.next.
  cbn [RotatingColors._current]. rewrite Hav.
  destruct (RotatingColors._current c) as [|[|n]]; simpl; lia.
Qed.

Lemma get_palette (c : RotatingColors.t) :
  palette_ok c ->
  RotatingColors.get c
  = nth (RotatingColors._current c)
      (RotatingColors._availables RotatingColors.init) ("", None, []).
Proof. intros [Hav _]. unfold RotatingColors.get. by rewrite Hav. Qed.

(** X1: the rotation keeps its index inside the two-entry palette, comes
    back to the same state after two steps, and two consecutive states give
    different colours, cyan and white on grey. *)
Theorem rotation_period_two (c : RotatingColors.t) :
  palette_ok c ->
  palette_ok (RotatingColors.next c)
  /\ RotatingColors.next (RotatingColors.next c) = c
  /\ RotatingColors.get (RotatingColors.next c) <> RotatingColors.get c
  /\ (RotatingColors.get c = ("cyan", None, [])
      \/ RotatingColors.get c = ("white", Some "on_grey", [])).
Proof.
  intros Hc. split; [by apply next_palette_ok|].
  destruct c as [av cur]. destruct Hc as [Hav Hcur]. simpl in Hav, Hcur.
  subst av. destruct cur as [|[|n]]; [| |lia];
    (split; [reflexivity|]); (split; [discriminate|]); auto.
Qed.

Lemma row_styles_lookup (important : gset string) (shown : list string)
    (c : RotatingColors.t) (i : nat) (f : string) :
  palette_ok c ->
  shown !! i = Some f ->
  row_styles important shown c !! i
  = Some (f, if bool_decide (f = "__ref__") then RotatingColors.getHeader
             else if bool_decide (f ∈ important) then RotatingColors.getEmph
             else nth ((RotatingColors._current c + i) mod 2)
                    (RotatingColors._availables RotatingColors.init)
                    ("", None, [])).
Proof.
  revert c i. induction shown as [|f' shown IH]; intros c i Hc Hi; [done|].
  destruct i as [|i]; cbn [row_styles].
  - simpl in Hi. simplify_eq. rewrite get_palette by done.
    destruct Hc as [_ Hcur].
    destruct (RotatingColors._current c) as [|[|n]]; [done|done|lia].
  - simpl in Hi. etrans; [exact (IH _ _ (next_palette_ok _ Hc) Hi)|].
    rewrite next_current by done. destruct Hc as [_ Hcur].
    replace ((1 - RotatingColors._current c + i) mod 2)%nat
      with ((RotatingColors._current c + S i) mod 2)%nat; [done|].
    destruct (RotatingColors._current c) as [|[|n]]; [done| |lia].
    replace (1 + S i)%nat with (i + 1 * 2)%nat by lia.
    by rewrite Nat.Div0.mod_add.
Qed.

(** X2: in the table, the row of the i-th displayed field (omitted fields
    do not count) has the header style if it is __ref__, else the emphasis
    style if the field is important, else the palette entry i mod 2: cyan
    on even positions, white on grey on odd ones. *)
Theorem row_style_by_position (geob : GeoBase) (things : list (Q * Key))
    (omit important : gset string) (lim : Z) (truncate : option Z)
    (show : list string) (w : world) :
  let rows :=
    row_styles important (not_omitted omit show) RotatingColors.init in
  display_loop geob things omit important lim truncate show
    RotatingColors.init w
  = for_ rows (write_row geob things lim truncate) w
  /\ (forall (i : nat) (f : string),
        not_omitted omit show !! i = Some f ->
        rows !! i
        = Some (f, if bool_decide (f = "__ref__")
                   then RotatingColors.getHeader
                   else if bool_decide (f ∈ important)
                   then RotatingColors.getEmph
                   else if Nat.even i then ("cyan", None, [])
                   else ("white", Some "on_grey", []))).
Proof.
  intros rows. split; [apply display_loop_rows|].
  intros i f Hi. unfold rows.
  rewrite (row_styles_lookup _ _ _ i f); [|split; [done|simpl; lia]|done].
  do 2 f_equal. repeat case_bool_decide; try done.
  cbn [RotatingColors._current RotatingColors.init Nat.add].
  rewrite <- Nat.bit0_mod, Nat.bit0_odd, <- Nat.negb_even.
  by destruct (Nat.even i).
Qed.

End Rotation.

(** ** Warnings and errors *)

Section Errors.

Context {rt : Runtime}.

Lemma two_cols_lines_pair (a b : string) (rest : list string) :
  two_cols_lines (a :: b :: rest)
  = ((tab ++ ljust15 a ++ tab ++ ljust15 b) ++ nl) :: two_cols_lines rest.
Proof. unfold two_cols_lines. by destruct rest. Qed.

Lemma display_on_two_cols_upto (n : nat) (a_list : list string) (w : world) :
  (length a_list <= n)%nat ->
  display_on_two_cols a_list w
  = (Ret tt, World (stdout w) (stderr w ++ two_cols_lines a_list) (trace w)).
Proof.
  revert a_list w. induction n as [|n IH]; intros a_list w Hlen.
  { destruct a_list; [|simpl in Hlen; lia]. run.
    rewrite app_nil_r. by destruct w. }
  destruct a_list as [|a [|b rest]].
  - run. rewrite app_nil_r. by destruct w.
  - by run.
  - rewrite two_cols_lines_pair. cbn [display_on_two_cols].
    unfold mbind, M_bind, print_err, write_err at 1.
    rewrite IH by (simpl in Hlen; lia). simpl. by rewrite <- app_assoc.
Qed.

Lemma display_on_two_cols_run (a_list : list string) (w : world) :
  display_on_two_cols a_list w
  = (Ret tt, World (stdout w) (stderr w ++ two_cols_lines a_list) (trace w)).
Proof. by apply (display_on_two_cols_upto (length a_list)). Qed.

Lemma two_cols_lines_length_upto (n : nat) (a_list : list string) :
  (length a_list <= n)%nat ->
  length (two_cols_lines a_list) = Nat.div2 (S (length a_list)).
Proof.
  revert a_list. induction n as [|n IH]; intros a_list Hlen.
  { by destruct a_list; [|simpl in Hlen; lia]. }
  destruct a_list as [|a [|b rest]]; [done|done|].
  rewrite two_cols_lines_pair. cbn [length Nat.div2].
  rewrite IH by (simpl in Hlen; lia). done.
Qed.

(** X3: [display_on_two_cols] writes on the error stream, and only there,
    one line for each pair of consecutive elements and one more for the
    last element when their number is odd: half the number of elements,
    rounded up; nothing for an empty list. *)
Theorem display_on_two_cols_lines (a_list : list string) (w : world) :
  display_on_two_cols a_list w
  = (Ret tt, World (stdout w) (stderr w ++ two_cols_lines a_list) (trace w))
  /\ length (two_cols_lines a_list) = Nat.div2 (S (length a_list))
  /\ (forall (a b : string) (rest : list string),
        a_list = a :: b :: rest ->
        two_cols_lines a_list
        = ((tab ++ ljust15 a ++ tab ++ ljust15 b) ++ nl)
            :: two_cols_lines rest).
Proof.
  split; [apply display_on_two_cols_run|]. split.
  - by apply (two_cols_lines_length_upto (length a_list)).
  - intros a b rest ->. apply two_cols_lines_pair.
Qed.

Lemma error_run (name : error_name) (w : world) :
  exists (line : string) (lines : list string),
    forall A : Type,
      @error A name w
      = (Exit 1, World (stdout w) (stderr w ++ line :: lines) (trace w)).
Proof.
  destruct name; eexists _, _; intros A; unfold error; run;
    rewrite ?display_on_two_cols_run; simpl; rewrite <- ?app_assoc; simpl;
    reflexivity.
Qed.

(** X4: [error] never returns: for every error type it ends the run with
    exit status 1, after writing at least one line on the error stream;
    it writes nothing on the output stream. *)
Theorem error_always_exits (A : Type) (name : error_name) (w : world) :
  (@error A name w).1 = Exit 1
  /\ stdout (@error A name w).2 = stdout w
  /\ trace (@error A name w).2 = trace w
  /\ (length (stderr w) < length (stderr (@error A name w).2))%nat
  /\ stderr w `prefix_of` stderr (@error A name w).2.
Proof.
  destruct (error_run name w) as (line & lines & Herr). rewrite Herr. simpl.
  repeat split; [|by eexists].
  rewrite length_app. simpl. lia.
Qed.

End Errors.

(** ** Geocodes and keys *)

Section Geocodes.

Context {rt : Runtime}.

Lemma list_ascii_of_string_app (s1 s2 : string) :
  list_ascii_of_string (s1 ++ s2)
  = (list_ascii_of_string s1 ++ list_ascii_of_string s2)%list.
Proof. induction s1 as [|a s1 IH]; [done|]. simpl. by rewrite IH. Qed.

Lemma lstrip_snoc (chars l : list ascii) (c : ascii) :
  c ∈ chars ->
  (Py.lstrip chars (l ++ [c]) = [] /\ Py.lstrip chars l = [])
  \/ Py.lstrip chars (l ++ [c]) = (Py.lstrip chars l ++ [c])%list.
Proof.
  intros Hc. induction l as [|a l IH]; simpl.
  - left. by rewrite bool_decide_true.
  - by case_bool_decide; [|right].
Qed.

(** Stripping does not see one more character of [chars] at each end. *)
Lemma strip_wrapped (chars : list ascii) (a b : ascii) (s : string) :
  a ∈ chars -> b ∈ chars ->
  Py.strip chars (String a (s ++ String b "")) = Py.strip chars s.
Proof.
  intros Ha Hb. unfold Py.strip. f_equal.
  cbn [list_ascii_of_string Py.lstrip]. rewrite bool_decide_true by done.
  rewrite list_ascii_of_string_app. cbn [list_ascii_of_string].
  destruct (lstrip_snoc chars (list_ascii_of_string s) b Hb)
    as [ [Hl1 Hl2] | Hl ]; [by rewrite Hl1, Hl2|rewrite Hl].
  rewrite rev_app_distr. cbn [rev app Py.lstrip].
  by rewrite bool_decide_true.
Qed.

(** X5: an argument made of two float tokens is a geocode: [scan_coords]
    returns the two floats without looking at the store, writes the
    "Geocode recognized" line on the output stream in verbose mode and
    nothing otherwise, and gives the same result when the argument is put
    in parentheses. *)
Theorem scan_coords_geocode (u : string) (g : GeoBase) (verbose : bool)
    (w : world) (lat lng : Q) :
  parse_coords u = Some [lat; lng] ->
  scan_coords u g verbose w
  = (Ret [lat; lng],
     World
       (stdout w
        ++ (if verbose
            then [("Geocode recognized: (" ++ Py.fmt3 lat ++ ", "
                   ++ Py.fmt3 lng ++ ")") ++ nl]
            else []))
       (stderr w) (trace w))
  /\ scan_coords ("(" ++ u ++ ")") g verbose w = scan_coords u g verbose w.
Proof.
  intros Hparse.
  assert (Hwrapped : parse_coords ("(" ++ u ++ ")") = Some [lat; lng]).
  { unfold parse_coords in *.
    change ("(" ++ u ++ ")") with (String "("%char (u ++ String ")"%char "")).
    rewrite strip_wrapped; [done| |]; repeat constructor. }
  assert (Hrun : forall u', parse_coords u' = Some [lat; lng] ->
    scan_coords u' g verbose w
    = (Ret [lat; lng],
       World
         (stdout w
          ++ (if verbose
              then [("Geocode recognized: (" ++ Py.fmt3 lat ++ ", "
                     ++ Py.fmt3 lng ++ ")") ++ nl]
              else []))
         (stderr w) (trace w))).
  { intros u' Hu'. unfold scan_coords. rewrite Hu'. destruct verbose; run.
    - done.
    - rewrite app_nil_r. by destruct w. }
  split; [by apply Hrun|]. by rewrite !Hrun.
Qed.

(** X6: an argument that is not made of floats is a key: when the store
    has it, [scan_coords] returns the location the store gives, as it is
    and without writing anything, and when the store has no location for
    it, writes the unknown-geocode message on the error stream and exits
    with status 1. *)
Theorem scan_coords_key (u : string) (g : GeoBase) (verbose : bool)
    (w : world) :
  parse_coords u = None ->
  contains g u = true ->
  scan_coords u g verbose w
  = match getLocation g u with
    | Some coords => (Ret coords, w)
    | None =>
        (Exit 1,
         World (stdout w)
           (stderr w ++ [(nl ++ "/!\ Geocode was unknown for " ++ u) ++ nl])
           (trace w))
    end.
Proof.
  intros Hparse Hkey. unfold scan_coords. rewrite Hparse, Hkey.
  destruct (getLocation g u); unfold error; by run.
Qed.

End Geocodes.

(** ** The cells of the table *)

Section Cells.

Context {rt : Runtime}.

Import Py.

Ltac euclid := zify; Z.to_euclidean_division_equations; lia.

Ltac bounds_of H :=
  unfold is_cont in H;
  repeat first
    [ rewrite andb_true_iff in H
    | rewrite negb_true_iff in H
    | rewrite N.ltb_lt in H
    | rewrite N.ltb_ge in H
    | rewrite N.leb_le in H
    | rewrite N.leb_gt in H ].

Lemma utf8_encode_char_decoded2 (b0 b1 : N) :
  (0xC2 <= b0 < 0xE0)%N -> (0x80 <= b1 < 0xC0)%N ->
  utf8_encode_char ((b0 - 0xC0) * 64 + (b1 - 0x80)) = [b0; b1].
Proof.
  intros H0 H1. unfold utf8_encode_char.
  repeat match goal with |- context [N.ltb ?a ?b] =>
    destruct (N.ltb_spec a b); try (exfalso; euclid) end.
  f_equal; [|f_equal]; euclid.
Qed.

Lemma utf8_encode_char_decoded3 (b0 b1 b2 : N) :
  (0xE0 <= b0 < 0xF0)%N -> (0x80 <= b1 < 0xC0)%N -> (0x80 <= b2 < 0xC0)%N ->
  (0x800 <= (b0 - 0xE0) * 4096 + (b1 - 0x80) * 64 + (b2 - 0x80))%N ->
  utf8_encode_char ((b0 - 0xE0) * 4096 + (b1 - 0x80) * 64 + (b2 - 0x80))
  = [b0; b1; b2].
Proof.
  intros H0 H1 H2 Hc. unfold utf8_encode_char.
  repeat match goal with |- context [N.ltb ?a ?b] =>
    destruct (N.ltb_spec a b); try (exfalso; euclid) end.
  f_equal; [|f_equal; [|f_equal]]; euclid.
Qed.

Lemma utf8_encode_char_decoded4 (b0 b1 b2 b3 : N) :
  (0xF0 <= b0 < 0xF5)%N -> (0x80 <= b1 < 0xC0)%N -> (0x80 <= b2 < 0xC0)%N ->
  (0x80 <= b3 < 0xC0)%N ->
  (0x10000 <= (b0 - 0xF0) * 262144 + (b1 - 0x80) * 4096
              + (b2 - 0x80) * 64 + (b3 - 0x80))%N ->
  utf8_encode_char ((b0 - 0xF0) * 262144 + (b1 - 0x80) * 4096
                    + (b2 - 0x80) * 64 + (b3 - 0x80))
  = [b0; b1; b2; b3].
Proof.
  intros H0 H1 H2 H3 Hc. unfold utf8_encode_char.
  repeat match goal with |- context [N.ltb ?a ?b] =>
    destruct (N.ltb_spec a b); try (exfalso; euclid) end.
  f_equal; [|f_equal; [|f_equal; [|f_equal]]]; euclid.
Qed.

Lemma utf8_encode_decode_bytes (n : nat) (bs : list N) (u : ustring) :
  (length bs <= n)%nat ->
  utf8_decode_bytes bs = Some u -> flat_map utf8_encode_char u = bs.
Proof.
  revert bs u. induction n as [|n IH]; intros bs u Hlen Hdec.
  { destruct bs; [|simpl in Hlen; lia]. simpl in Hdec. by simplify_eq. }
  destruct bs as [|b0 r0]; [simpl in Hdec; by simplify_eq|].
  cbn [utf8_decode_bytes] in Hdec. cbv zeta in Hdec.
  repeat case_match; try discriminate; subst;
    apply fmap_Some in Hdec as (u' & Hu' & ->);
    (apply IH in Hu'; [|simpl in Hlen |- *; lia]);
    cbn [flat_map]; rewrite Hu';
    repeat match goal with H : _ = true |- _ => bounds_of H end;
    repeat match goal with H : _ = false |- _ => bounds_of H end;
    first
      [ by (unfold utf8_encode_char; destruct (N.ltb_spec b0 128); [|lia])
      | rewrite utf8_encode_char_decoded2; [done|lia|lia]
      | rewrite utf8_encode_char_decoded3; [done|lia..]
      | rewrite utf8_encode_char_decoded4; [done|lia..] ].
Qed.

Lemma of_bytes_bytes_of (s : string) : of_bytes (bytes_of s) = s.
Proof.
  unfold of_bytes, bytes_of. rewrite map_map.
  rewrite (map_ext _ id) by apply ascii_N_embedding.
  rewrite map_id. apply string_of_list_ascii_of_string.
Qed.

(** A byte string that decodes is the encoding of what it decodes to. *)
Lemma utf8_encode_decode (s : string) (u : ustring) :
  utf8_decode s = Some u -> utf8_encode u = s.
Proof.
  intros Hu. unfold utf8_encode.
  rewrite (utf8_encode_decode_bytes (length (bytes_of s)) (bytes_of s) u);
    [apply of_bytes_bytes_of|done|done].
Qed.

Lemma string_of_list_ascii_append (l1 l2 : list ascii) :
  string_of_list_ascii (l1 ++ l2)%list
  = string_of_list_ascii l1 ++ string_of_list_ascii l2.
Proof. induction l1 as [|a l1 IH]; [done|]. simpl. by rewrite IH. Qed.

Lemma utf8_encode_app (u v : ustring) :
  utf8_encode (u ++ v)%list = utf8_encode u ++ utf8_encode v.
Proof.
  unfold utf8_encode, of_bytes.
  by rewrite flat_map_app, map_app, string_of_list_ascii_append.
Qed.

Lemma utf8_encode_spaces (n : nat) :
  utf8_encode (replicate n 32%N)
  = string_of_list_ascii (replicate n " "%char).
Proof.
  induction n as [|n IH]; [done|].
  change (replicate (S n) 32%N) with ([32%N] ++ replicate n 32%N)%list.
  rewrite utf8_encode_app, IH. done.
Qed.

(** X7: for a value that decodes, whatever [lim] and [truncate] (None
    counting as 1000), the cell holds max(lim, min(length, truncate))
    characters: never fewer than [lim], and more than [lim] exactly when the
    kept part of the value is longer; these characters are encoded as
    valid UTF-8. *)
Theorem fixed_width_cell_width (s : string) (col : Color) (lim : Z)
    (truncate : option Z) (u : ustring) (w : world) :
  utf8_decode s = Some u ->
  0 <= lim ->
  0 <= default 1000 truncate ->
  fixed_width s col lim truncate w
    = (Ret (colored (utf8_encode (cell_chars u lim truncate)) col), w)
  /\ utf8_decode (utf8_encode (cell_chars u lim truncate))
     = Some (cell_chars u lim truncate)
  /\ length (cell_chars u lim truncate)
     = (Z.to_nat lim
        `max` (length u `min` Z.to_nat (default 1000%Z truncate)))%nat.
Proof.
  intros Hu Hlim Htr. split; [|split].
  - unfold fixed_width, cell_chars. rewrite Hu. by destruct truncate.
  - apply utf8_decode_encode. unfold cell_chars, ljust, slice_to.
    destruct (Z.leb_spec 0 (default 1000 truncate)); [|lia].
    apply Forall_app. split.
    + apply Forall_take. by eapply utf8_decode_scalar.
    + apply Forall_replicate. unfold scalar. lia.
  - unfold cell_chars, ljust, slice_to.
    destruct (Z.leb_spec 0 (default 1000 truncate)); [|lia].
    rewrite length_app, length_replicate, length_take, Z.abs_eq by done. lia.
Qed.

(** X8: a value that decodes and has no more characters than the
    truncation width (1000 when there is none) comes out byte for byte,
    followed by the spaces that bring it to [lim] characters. *)
Theorem fixed_width_keeps_value (s : string) (col : Color) (lim : Z)
    (truncate : option Z) (u : ustring) (w : world) :
  utf8_decode s = Some u ->
  (Z.of_nat (length u) <= default 1000 truncate) ->
  fixed_width s col lim truncate w
  = (Ret (colored
            (s ++ string_of_list_ascii
                    (replicate (Z.to_nat (Z.abs lim) - length u) " "%char))
            col), w).
Proof.
  intros Hu Hlen. unfold fixed_width. rewrite Hu.
  replace (slice_to u match truncate with Some t => t | None => 1000 end)
    with u.
  - unfold ljust. by rewrite utf8_encode_app, utf8_encode_spaces,
      (utf8_encode_decode s u).
  - unfold slice_to. destruct truncate as [t|]; simpl in Hlen;
      (case_match; [|lia]); rewrite take_ge; done || lia.
Qed.

End Cells.

(** ** What the renderers write *)

Section Output.

Context {rt : Runtime}.

Lemma for_outcome {A} (ok : A -> bool) (e : exn) (body : A -> M unit)
    (l : list A) (w : world) :
  (forall x w', (body x w').1 = if ok x then Ret tt else Raise e) ->
  (for_ l body w).1 = if forallb ok l then Ret tt else Raise e.
Proof.
  intros Hbody. revert w. induction l as [|x l IH]; intros w; [done|].
  cbn [for_ forallb]. unfold mbind, M_bind.
  specialize (Hbody x w). destruct (body x w) as [o w'].
  simpl in Hbody. subst o. destruct (ok x); [apply IH|done].
Qed.

Lemma for_chunks {A} (chunks : A -> list string) (body : A -> M unit)
    (l : list A) (w : world) :
  Forall (λ x, forall w',
    body x w'
    = (Ret tt, World (stdout w' ++ chunks x) (stderr w') (trace w'))) l ->
  for_ l body w
  = (Ret tt, World (stdout w ++ flat_map chunks l) (stderr w) (trace w)).
Proof.
  intros Hbody. revert w. induction Hbody as [|x l Hx _ IH]; intros w.
  - run. rewrite app_nil_r. by destruct w.
  - cbn [for_ flat_map]. unfold mbind, M_bind. rewrite Hx, IH. simpl.
    by rewrite <- app_assoc.
Qed.

Lemma fixed_width_cell (s : string) (col : Color) (lim : Z)
    (truncate : option Z) (w : world) :
  fixed_width s col lim truncate w
  = (if decodable s then Ret (cell_text s col lim truncate)
     else Raise UnicodeDecodeError, w).
Proof.
  unfold fixed_width, decodable, cell_text, cell_chars.
  destruct (Py.utf8_decode s) as [u|] eqn:Hu.
  - rewrite bool_decide_true by eauto. by destruct truncate.
  - rewrite bool_decide_false; [done|]. by intros [? ?].
Qed.

Lemma flat_map_singleton {A B} (f : A -> B) (l : list A) :
  flat_map (λ x, [f x]) l = map f l.
Proof. induction l as [|x l IH]; [done|]. simpl. by rewrite IH. Qed.

Lemma forallb_map_compose {A B} (p : B -> bool) (f : A -> B) (l : list A) :
  forallb p (map f l) = forallb (λ x, p (f x)) l.
Proof. induction l as [|x l IH]; [done|]. simpl. by rewrite IH. Qed.

Lemma bind_run {A B} (m : M A) (k : A -> M B) (w w' : world)
    (o : outcome A) :
  m w = (o, w') ->
  (m ≫= k) w
  = match o with
    | Ret a => k a w'
    | Exit code => (Exit code, w')
    | Raise e => (Raise e, w')
    end.
Proof. intros Hm. unfold mbind, M_bind. by rewrite Hm. Qed.

Lemma write_label_run (f : string) (col : Color) (lim : Z)
    (truncate : option Z) (w : world) :
  (fixed_width f col lim truncate ≫= λ s, write_out (nl ++ s)) w
  = (if decodable f then Ret tt else Raise UnicodeDecodeError,
     if decodable f
     then World (stdout w ++ [nl ++ cell_text f col lim truncate])
            (stderr w) (trace w)
     else w).
Proof.
  erewrite bind_run by apply fixed_width_cell. by destruct (decodable f).
Qed.

Lemma write_cell_run (s : string) (col : Color) (lim : Z)
    (truncate : option Z) (w : world) :
  (fixed_width s col lim truncate ≫= λ s', write_out s') w
  = (if decodable s then Ret tt else Raise UnicodeDecodeError,
     if decodable s
     then World (stdout w ++ [cell_text s col lim truncate])
            (stderr w) (trace w)
     else w).
Proof.
  erewrite bind_run by apply fixed_width_cell. by destruct (decodable s).
Qed.

Lemma write_row_outcome (geob : GeoBase) (things : list (Q * Key)) (lim : Z)
    (truncate : option Z) (row : string * Color) (w : world) :
  (write_row geob things lim truncate row w).1
  = if row_decodable geob things row.1 then Ret tt
    else Raise UnicodeDecodeError.
Proof.
  destruct row as [f col]. unfold write_row, row_decodable, row_values.
  cbn [forallb fst]. erewrite bind_run by apply write_label_run.
  destruct (decodable f); [|done].
  cbn [andb]. rewrite forallb_map_compose.
  apply (for_outcome _ UnicodeDecodeError). intros [h k] w'.
  rewrite write_cell_run. by destruct (decodable _).
Qed.

Lemma write_row_chunks (geob : GeoBase) (things : list (Q * Key)) (lim : Z)
    (truncate : option Z) (row : string * Color) (w : world) :
  row_decodable geob things row.1 = true ->
  write_row geob things lim truncate row w
  = (Ret tt,
     World (stdout w ++ row_chunks geob things lim truncate row)
       (stderr w) (trace w)).
Proof.
  destruct row as [f col]. unfold row_decodable, row_values, row_chunks.
  cbn [forallb fst snd map]. intros [Hf Hcells]%andb_true_iff.
  unfold write_row. erewrite bind_run by apply write_label_run.
  rewrite Hf.
  rewrite (for_chunks (λ '(h, k),
    [cell_text (if bool_decide (f = "__ref__") then Py.fmt3 h
                else get geob k f) col lim truncate])).
  - simpl. rewrite <- app_assoc. simpl. do 4 f_equal.
    rewrite map_map. clear. induction things as [|[h k] things IH]; [done|].
    simpl. by rewrite IH.
  - rewrite forallb_map_compose in Hcells.
    pose proof (proj1 (forallb_forall _ _) Hcells) as Hall.
    apply List.Forall_forall.
    intros [h k] Hin w'. rewrite write_cell_run.
    by rewrite (Hall _ Hin).
Qed.

Lemma display_quiet_run (geob : GeoBase) (things : list (Q * Key))
    (omit : gset string) (show : list string) (w : world) :
  display_quiet geob things omit show w
  = (Ret tt,
     World
       (stdout w ++ map (quiet_line geob omit show)
                      (List.filter (λ hk, contains geob hk.2) things))
       (stderr w) (trace w)).
Proof.
  unfold display_quiet. fold (effective_show geob show).
  revert w. induction things as [|[h k] things IH]; intros w.
  - run. rewrite app_nil_r. by destruct w.
  - cbn [for_ List.filter snd]. unfold mbind, M_bind.
    destruct (contains geob k); cbn [negb].
    + unfold write_out at 1. rewrite IH. simpl.
      rewrite <- app_assoc. unfold quiet_line at 2. simpl.
      by rewrite quiet_cells_map.
    + unfold mret, M_ret at 1. apply IH.
Qed.

(** X9: the quiet renderer always returns; it writes on the output stream,
    and only there, one line for each result whose key is in the store, in
    the order of the results, and passes over the others in silence: no
    more lines than results, and as many when every key is in the store. *)
Theorem display_quiet_lines (geob : GeoBase) (things : list (Q * Key))
    (omit : gset string) (show : list string) (w : world) :
  let present := List.filter (λ hk, contains geob hk.2) things in
  display_quiet geob things omit show w
  = (Ret tt,
     World (stdout w ++ map (quiet_line geob omit show) present)
       (stderr w) (trace w))
  /\ (length present <= length things)%nat
  /\ (Forall (λ hk, contains geob hk.2 = true) things -> present = things).
Proof.
  intros present. split; [apply display_quiet_run|]. split.
  - apply filter_length_le.
  - intros Hall. unfold present.
    induction Hall as [|hk things Hhk _ IH]; [done|].
    simpl. by rewrite Hhk, IH.
Qed.

(** X10: with one result at least, a terminal size that can be read and
    rows whose field name and values all decode, the table renderer returns
    after writing, on the output stream only, the rows of the displayed
    fields in their order, each made of its label after a newline and of one
    cell per result, then a final newline. *)
Theorem display_table (env : Env) (geob : GeoBase) (things : list (Q * Key))
    (omit : gset string) (show : list string) (important : gset string)
    (size : list Z) (W : Z) (w : world) :
  things <> [] ->
  getTermSize env w = (Ret size, w) ->
  size !! 1%nat = Some W ->
  let shown := not_omitted omit (effective_show geob show) in
  let lim := display_lim W (length things) in
  let truncate := if (length things =? 1)%nat then None else Some lim in
  let rows := row_styles important shown RotatingColors.init in
  forallb (row_decodable geob things) shown = true ->
  display env geob things omit show important w
  = (Ret tt,
     World
       (stdout w ++ flat_map (row_chunks geob things lim truncate) rows
        ++ [nl])
       (stderr w) (trace w))
  /\ length (flat_map (row_chunks geob things lim truncate) rows)
     = (length shown * S (length things))%nat.
Proof.
  intros Hthings Hsize HW shown lim truncate rows Hdec. split.
  - unfold display. destruct things as [|thing things']; [done|].
    fold (effective_show geob show).
    unfold mbind at 1, M_bind at 1. rewrite Hsize.
    unfold mbind at 1, M_bind at 1. unfold index. rewrite HW.
    unfold mret at 1, M_ret at 1.
    unfold mbind at 1, M_bind at 1. rewrite display_loop_rows.
    fold shown lim truncate rows.
    rewrite (for_chunks (row_chunks geob (thing :: things') lim truncate)).
    + unfold write_out. simpl. by rewrite <- app_assoc.
    + apply List.Forall_forall. intros row Hrow w'.
      apply write_row_chunks.
      apply (proj1 (forallb_forall _ _) Hdec).
      rewrite <- (row_styles_fields important shown RotatingColors.init).
      by apply in_map.
  - unfold rows. generalize RotatingColors.init.
    clear. induction shown as [|f shown IH]; intros c; [done|].
    cbn [row_styles flat_map]. rewrite length_app, IH.
    unfold row_chunks, row_values. simpl. rewrite !length_map. lia.
Qed.

Lemma utf8_decode_cpython2_more (n : nat) (bs : list N) (u : Py.ustring) :
  (length bs <= n)%nat ->
  Py.utf8_decode_bytes bs = Some u -> utf8_decode_cpython2 bs = Some u.
Proof.
  revert bs u. induction n as [|n IH]; intros bs u Hlen Hdec.
  { destruct bs; [done|simpl in Hlen; lia]. }
  destruct bs as [|b0 r0]; [done|].
  cbn [Py.utf8_decode_bytes] in Hdec. cbn [utf8_decode_cpython2].
  cbv zeta in Hdec |- *.
  repeat case_match; try discriminate; subst;
    apply fmap_Some in Hdec as (u' & Hu' & ->);
    try (rewrite (IH _ u'); [done|simpl in Hlen |- *; lia|done]);
    repeat match goal with
      | H : (_ && _) = true |- _ => apply andb_true_iff in H as [? ?]
      end;
    congruence.
Qed.

Lemma refused_not_decodable (s : string) :
  utf8_decode_cpython2 (Py.bytes_of s) = None -> decodable s = false.
Proof.
  intros Hnone. unfold decodable. apply bool_decide_false. intros [u Hu].
  apply (utf8_decode_cpython2_more (length (Py.bytes_of s))) in Hu; [|done].
  congruence.
Qed.

(** X11: with one result at least and a terminal size that can be read, the
    table renderer returns when the name and the values of every displayed
    row are valid UTF-8, and raises UnicodeDecodeError when a displayed row
    has a byte string that no UTF-8 decoder takes, the one of CPython 2,
    which lets encoded surrogates pass, included; the quiet renderer returns
    on the same input. *)
Theorem display_outcome (env : Env) (geob : GeoBase)
    (things : list (Q * Key)) (omit : gset string) (show : list string)
    (important : gset string) (size : list Z) (W : Z) (w : world) :
  things <> [] ->
  getTermSize env w = (Ret size, w) ->
  size !! 1%nat = Some W ->
  let shown := not_omitted omit (effective_show geob show) in
  (forallb (row_decodable geob things) shown = true ->
   (display env geob things omit show important w).1 = Ret tt)
  /\ (forall f s : string,
        In f shown ->
        In s (row_values geob things f) ->
        utf8_decode_cpython2 (Py.bytes_of s) = None ->
        (display env geob things omit show important w).1
        = Raise UnicodeDecodeError)
  /\ (display_quiet geob things omit show w).1 = Ret tt.
Proof.
  intros Hthings Hsize HW shown.
  assert (Hout : (display env geob things omit show important w).1
                 = if forallb (row_decodable geob things) shown
                   then Ret tt else Raise UnicodeDecodeError).
  { unfold display. destruct things as [|thing things']; [done|].
    fold (effective_show geob show).
    unfold mbind at 1, M_bind at 1. rewrite Hsize.
    unfold mbind at 1, M_bind at 1. unfold index. rewrite HW.
    unfold mret at 1, M_ret at 1.
    unfold mbind at 1, M_bind at 1. rewrite display_loop_rows.
    cbv zeta.
    match goal with |- context [for_ ?rows ?body w] =>
      pose proof (for_outcome
                    (λ row, row_decodable geob (thing :: things') row.1)
                    UnicodeDecodeError body rows w
                    ltac:(intros; apply write_row_outcome)) as Hrows;
      rewrite <- forallb_map_compose, row_styles_fields in Hrows;
      destruct (for_ rows body w) as [o w']
    end.
    simpl in Hrows. subst o. fold shown. by destruct (forallb _ _). }
  split; [|split].
  - intros Hall. by rewrite Hout, Hall.
  - intros f s Hf Hs Hrefused. rewrite Hout.
    destruct (forallb (row_decodable geob things) shown) eqn:Hall; [|done].
    pose proof (proj1 (forallb_forall _ _) Hall f Hf) as Hrow.
    pose proof (proj1 (forallb_forall _ _) Hrow s Hs) as Hcell.
    by rewrite (refused_not_decodable s Hrefused) in Hcell.
  - by rewrite display_quiet_run.
Qed.

End Output.

(** ** The first blocks of [main] *)

Section Validation.

Context {rt : Runtime}.

Lemma when_when (b1 b2 : bool) (m : M unit) :
  when b1 (when b2 m) = when (b1 && b2) m.
Proof. by destruct b1. Qed.

Lemma when_error_bind {B} (c : bool) (name : error_name) (rest : M B)
    (w : world) :
  (when c (error name) ≫= λ _, rest) w
  = if c then @error B name w else rest w.
Proof.
  destruct c; [|done]. unfold when.
  destruct (error_run name w) as (line & lines & Herr).
  by rewrite (bind_run _ _ _ _ _ (Herr unit)), Herr.
Qed.

Lemma error_exists {A} (name : error_name) (w : world) :
  exists (line : string) (lines : list string),
    @error A name w
    = (Exit 1, World (stdout w) (stderr w ++ line :: lines) (trace w)).
Proof. destruct (error_run name w) as (line & lines & Herr). eauto. Qed.

Lemma check_fields_run (data : string) (allowed fields_ : list string)
    (w : world) :
  (Forall (λ f, f ∈ allowed) fields_
   /\ for_ fields_ (λ field,
        when (bool_decide (field ∉ allowed))
          (error (err_field field data allowed))) w = (Ret tt, w))
  \/ (~ Forall (λ f, f ∈ allowed) fields_
      /\ exists (line : string) (lines : list string),
           for_ fields_ (λ field,
             when (bool_decide (field ∉ allowed))
               (error (err_field field data allowed))) w
           = (Exit 1,
              World (stdout w) (stderr w ++ line :: lines) (trace w))).
Proof.
  induction fields_ as [|f fields_ IH]; [by left|].
  cbn [for_]. rewrite when_error_bind. case_bool_decide as Hf.
  - right. split; [by intros [? _]%Forall_cons_1|].
    destruct (error_run (err_field f data allowed) w) as (l1 & l2 & Herr).
    eauto.
  - destruct IH as [[Hall Hrun]|[Hnot Hrun]].
    + left. split; [|done]. constructor; [|done].
      by destruct (decide (f ∈ allowed)).
    + right. split; [|done]. by intros [_ ?]%Forall_cons_1.
Qed.

Lemma failing_cases (args : Args) (g : GeoBase) (w : world) :
  (validated args g /\ failing args g w = (Ret tt, w))
  \/ (~ validated args g
      /\ exists (line : string) (lines : list string),
           failing args g w
           = (Exit 1,
              World (stdout w) (stderr w ++ line :: lines) (trace w))).
Proof.
  unfold failing, validated. rewrite !when_when, !when_error_bind.
  destruct (bool_decide (trep args ≠ None) && negb (hasTrepSupport g))
    eqn:Htrep.
  { right. split; [|by apply error_exists].
    apply andb_true_iff in Htrep as [Ht Hs]. apply bool_decide_eq_true in Ht.
    intros (Hv & _). rewrite (Hv Ht) in Hs. done. }
  destruct ((bool_decide (near args ≠ None)
             || bool_decide (closest args ≠ None))
            && negb (hasGeoSupport g)) eqn:Hgeo.
  { right. split; [|by apply error_exists].
    apply andb_true_iff in Hgeo as [Hn Hs]. apply orb_true_iff in Hn.
    rewrite !bool_decide_eq_true in Hn.
    intros (_ & Hv & _). rewrite (Hv Hn) in Hs. done. }
  destruct (bool_decide (exact args ≠ None)
            && bool_decide (exact_property args ∉ fields g)) eqn:Hexact.
  { right. split; [|by apply error_exists].
    apply andb_true_iff in Hexact as [He Hp].
    apply bool_decide_eq_true in He, Hp.
    intros (_ & _ & Hv & _). by apply Hp, Hv. }
  destruct (bool_decide (fuzzy args ≠ None)
            && bool_decide (fuzzy_property args ∉ fields g)) eqn:Hfuzzy.
  { right. split; [|by apply error_exists].
    apply andb_true_iff in Hfuzzy as [Hf Hp].
    apply bool_decide_eq_true in Hf, Hp.
    intros (_ & _ & _ & Hv & _). by apply Hp, Hv. }
  destruct (check_fields_run (base args) ("__ref__" :: fields g)
              (show args ++ omit args) w) as [[Hall Hrun]|[Hnot Hrun]].
  - left. split; [|done]. repeat split; [| | | |done].
    + intros Ht. apply andb_false_iff in Htrep as [Hb|Hb].
      * by apply bool_decide_eq_false in Hb.
      * by destruct (hasTrepSupport g).
    + intros Hn. apply andb_false_iff in Hgeo as [Hb|Hb].
      * apply orb_false_iff in Hb as [Hb1 Hb2].
        apply bool_decide_eq_false in Hb1, Hb2. tauto.
      * by destruct (hasGeoSupport g).
    + intros He. apply andb_false_iff in Hexact as [Hb|Hb].
      * by apply bool_decide_eq_false in Hb.
      * apply bool_decide_eq_false in Hb.
        by destruct (decide (exact_property args ∈ fields g)).
    + intros Hf. apply andb_false_iff in Hfuzzy as [Hb|Hb].
      * by apply bool_decide_eq_false in Hb.
      * apply bool_decide_eq_false in Hb.
        by destruct (decide (fuzzy_property args ∈ fields g)).
  - right. split; [|done]. by intros (_ & _ & _ & _ & ?).
Qed.

(** X12: the FAILING block lets a run go on, without writing anything,
    exactly when: --trep comes with opentrep support, --near and --closest
    with geocoding support, the property of --exact and of --fuzzy is a
    field of the store when the option is given, and every field of --show
    and --omit is __ref__ or a field of the store; otherwise it exits with
    status 1 after writing on the error stream only. *)
Theorem failing_iff_validated (args : Args) (g : GeoBase) (w : world) :
  (failing args g w = (Ret tt, w) <-> validated args g)
  /\ (~ validated args g ->
      (failing args g w).1 = Exit 1
      /\ stdout (failing args g w).2 = stdout w
      /\ trace (failing args g w).2 = trace w
      /\ (length (stderr w) < length (stderr (failing args g w).2))%nat).
Proof.
  destruct (failing_cases args g w)
    as [[Hv Hrun]|[Hnv (line & lines & Hrun)]]; rewrite Hrun.
  - split; [done|]. by intros Hnv.
  - split; [split; [done|by intros ?]|]. intros _. simpl.
    repeat split. rewrite length_app. simpl. lia.
Qed.

End Validation.

(** ** Whole runs *)

Section WholeRuns.

Context {rt : Runtime}.

Lemma get_limit_cases (args : Args) (w : world) :
  (exists l : option Z, get_limit args w = (Ret l, w))
  \/ ((exists s : string, limit args = Some s /\ py_int s = None)
      /\ get_limit args w = (Raise ValueError, w)).
Proof.
  unfold get_limit. destruct (limit args) as [s|].
  - destruct (py_int s) as [n|] eqn:Hs; [left|right]; eauto.
  - left. destruct (quiet args); eauto.
Qed.

Lemma scan_coords_quiet_stdout (u : string) (g : GeoBase) (w : world) :
  stdout (scan_coords u g false w).2 = stdout w.
Proof.
  unfold scan_coords, error, warn_key. run.
  repeat (case_match; run; simplify_eq); done.
Qed.

Lemma run_stages_quiet_stdout (args : Args) (g : GeoBase)
    (res : list (Q * Key)) (w : world) :
  quiet args = true -> stdout (run_stages args g res w).2 = stdout w.
Proof.
  intros Hq. unfold run_stages. rewrite Hq. cbn [negb].
  destruct (trep args), (exact args), (near args), (closest args),
    (fuzzy args); run;
    repeat match goal with
      | |- context [scan_coords ?u ?g false ?w0] =>
          let E := fresh "E" in
          pose proof (scan_coords_quiet_stdout u g w0) as E;
          destruct (scan_coords u g false w0) as [[?| |] ?];
          simpl in E |- *
      end;
    congruence.
Qed.

Lemma remove_unknown_run (g : GeoBase) (res : list (Q * Key)) (w : world) :
  remove_unknown g res w
  = (Ret (List.filter (λ '(h, k), contains g k) res),
     World (stdout w)
       (stderr w ++ map (λ hk, key_warning g hk.2)
                      (List.filter (λ '(h, k), negb (contains g k)) res))
       (trace w)).
Proof.
  unfold remove_unknown. by rewrite (bind_run _ _ _ _ _ (for_warn_unknown g res w)).
Qed.

Lemma filter_present_again (g : GeoBase) (res : list (Q * Key)) :
  List.filter (λ hk, contains g hk.2)
    (List.filter (λ '(h, k), contains g k) res)
  = List.filter (λ hk, contains g hk.2) res.
Proof.
  induction res as [|[h k] res IH]; [done|]. simpl.
  destruct (contains g k) eqn:Hk; simpl; by rewrite ?Hk, IH.
Qed.

(** X13: a --limit that is not an integer makes [main] raise ValueError
    before anything else: nothing is written, whatever the other options,
    a wrong --base or --update included. *)
Theorem main_bad_limit (env : Env) (args : Args) (w : world) (s : string) :
  limit args = Some s ->
  py_int s = None ->
  main env args w = (Raise ValueError, w).
Proof.
  intros Hl Hs. unfold main, get_limit. rewrite Hl, Hs.
  by rewrite (bind_run _ _ w w (Raise ValueError)).
Qed.

(** X14: with a --limit that is absent or an integer, a --base that is not
    one of the known bases ends the run with exit status 1, whatever the
    other options: the error stream gets the wrong-base line and the known
    bases in two columns, the output stream nothing. *)
Theorem main_unknown_base (env : Env) (args : Args) (w : world) :
  (forall s : string, limit args = Some s -> is_Some (py_int s)) ->
  base args ∉ BASES env ->
  main env args w
  = (Exit 1,
     World (stdout w)
       (stderr w
        ++ ((nl ++ "/!\ Wrong base " ++ dq ++ base args ++ dq
             ++ ". You may select:") ++ nl)
           :: two_cols_lines (BASES env))
       (trace w)).
Proof.
  intros Hlimit Hbase. unfold main.
  destruct (get_limit_cases args w) as [[l Hl]|[(s & Hs & Hnone) _]].
  - rewrite (bind_run _ _ _ _ _ Hl), when_error_bind.
    rewrite bool_decide_true by done.
    unfold error. run. rewrite display_on_two_cols_run. simpl.
    by rewrite <- app_assoc.
  - destruct (Hlimit s Hs) as [n Hn]. congruence.
Qed.

(** X15: with a --limit that is absent or an integer and a known --base,
    --update ends the run with exit status 0 once the update is made: the
    launcher writes nothing of its own, checks no other option and makes
    no search. *)
Theorem main_update (env : Env) (args : Args) (w : world) :
  (forall s : string, limit args = Some s -> is_Some (py_int s)) ->
  base args ∈ BASES env ->
  update args = true ->
  main env args w = (Exit 0, w).
Proof.
  intros Hlimit Hbase Hupdate. unfold main.
  destruct (get_limit_cases args w) as [[l Hl]|[(s & Hs & Hnone) _]].
  - rewrite (bind_run _ _ _ _ _ Hl), when_error_bind.
    rewrite bool_decide_false by tauto. rewrite Hupdate.
    by rewrite (bind_run _ _ w w (Exit 0)).
  - destruct (Hlimit s Hs) as [n Hn]. congruence.
Qed.

(** X16: in quiet mode the output stream gets nothing but result lines:
    a run that returns has written one line for each key of the limited
    stream that the store has, in the order of the stream, and a run that
    exits or raises has written nothing on it. *)
Theorem quiet_output_is_results (env : Env) (args : Args) (w : world) :
  quiet args = true ->
  let g := open_base env (base args) (verbose args) in
  let r := main env args w in
  (r.1 = Ret tt
   /\ exists (l : option Z) (res : list (Q * Key)) (w1 : world),
        get_limit args w = (Ret l, w)
        /\ run_stages args g (initial_res env args g) w = (Ret res, w1)
        /\ stdout r.2
           = (stdout w
              ++ map (quiet_line g (list_to_set (omit args)) (show args))
                   (List.filter (λ hk, contains g hk.2) (limiter l res)))%list)
  \/ (r.1 <> Ret tt /\ stdout r.2 = stdout w).
Proof.
  intros Hq g r. unfold r, main. rewrite Hq. cbn [negb]. fold g.
  destruct (get_limit_cases args w) as [[l Hl]|[_ Hl]];
    rewrite (bind_run _ _ _ _ _ Hl); [|by right].
  rewrite when_error_bind. case_bool_decide.
  { right. destruct (@error_exists unit (err_base (base args) (BASES env)) w)
      as (line & lines & ->). done. }
  destruct (update args).
  { right. by rewrite (bind_run _ _ w w (Exit 0)). }
  rewrite (bind_run _ _ w w (Ret tt)) by done.
  rewrite (bind_run _ _ w w (Ret tt)) by done.
  destruct (failing_cases args g w)
    as [[_ Hf]|[_ (line & lines & Hf)]]; rewrite (bind_run _ _ _ _ _ Hf);
    [|by right].
  rewrite (bind_run _ _ w w (Ret tt)) by done.
  pose proof (run_stages_quiet_stdout args g (initial_res env args g) w Hq)
    as Hout.
  destruct (run_stages args g (initial_res env args g) w) as [[res| |] w1]
    eqn:Hrun; rewrite (bind_run _ _ _ _ _ Hrun); simpl in Hout;
    [|by right..].
  rewrite (bind_run _ _ _ _ _ (remove_unknown_run g _ w1)).
  rewrite display_quiet_run. left. split; [done|].
  exists l, res, w1. split; [done|]. split; [done|]. cbn [snd stdout].
  by rewrite filter_present_again, Hout.
Qed.

End WholeRuns.

(** ** The streams the stages leave *)

Section Streams.

Context {rt : Runtime}.

(** X17: the limiter leaves the stream alone without a limit, keeps
    min(N, length) entries for a limit N >= 0, none for 0, and for a
    negative N drops the last |N| entries (all of them when there are
    fewer). *)
Theorem limiter_length (res : list (Q * Key)) :
  limiter None res = res
  /\ limiter (Some 0) res = []
  /\ (forall n : Z, 0 <= n ->
        length (limiter (Some n) res) = (Z.to_nat n `min` length res)%nat)
  /\ (forall n : Z, n < 0 ->
        length (limiter (Some n) res) = (length res - Z.to_nat (- n))%nat
        /\ (limiter (Some n) res
            ++ drop (length res - Z.to_nat (- n)) res)%list = res).
Proof.
  unfold limiter, Py.slice_to. split; [done|]. split; [done|]. split.
  - intros n Hn. destruct (Z.leb_spec 0 n); [|lia]. apply length_take.
  - intros n Hn. destruct (Z.leb_spec 0 n); [lia|].
    split; [|apply take_drop]. rewrite length_take. lia.
Qed.

Lemma fmt3_position (i : nat) :
  Py.fmt3 (inject_Z (Z.of_nat i)) = pretty (Z.of_nat i) ++ ".000".
Proof.
  unfold Py.fmt3.
  assert (Hpos : Qle_bool 0 (inject_Z (Z.of_nat i)) = true).
  { apply Qle_bool_iff. unfold Qle. simpl. lia. }
  rewrite Hpos.
  assert (Hround : Py.round_half_even (Qabs (inject_Z (Z.of_nat i)) * 1000)
                   = Z.of_nat i * 1000).
  { unfold Py.round_half_even.
    change (Qabs (inject_Z (Z.of_nat i)) * 1000)%Q
      with ((Z.abs (Z.of_nat i) * 1000) # 1).
    cbn [Qnum Qden]. rewrite Z.mod_1_r, Z.div_1_r, Z.abs_eq by lia. done. }
  rewrite Hround, Z.div_mul, Z.mod_mul by lia. done.
Qed.

(** X18: for a stream made by [enumerate] (a run without filter, or one
    whose last stage is --exact), the __ref__ cell of the i-th result is
    its position written with three zero decimals: 0.000, 1.000, ... *)
Theorem ref_cell_of_position (geob : GeoBase) (l : list Key) (i : nat)
    (k : Key) :
  l !! i = Some k ->
  exists h : Q,
    Py.enumerate l !! i = Some (h, k)
    /\ quiet_cell geob h k "__ref__" = pretty (Z.of_nat i) ++ ".000".
Proof.
  intros Hi. exists (inject_Z (Z.of_nat i)). split.
  - unfold Py.enumerate. by rewrite (enumerate_from_lookup _ 0 i k Hi).
  - unfold quiet_cell. rewrite bool_decide_true by done. apply fmt3_position.
Qed.

Lemma tuple_ltb_false_le (x y : Q * string) :
  Py.tuple_ltb y x = false -> by_score x y.
Proof.
  unfold Py.tuple_ltb, by_score.
  destruct (Qeq_bool y.1 x.1) eqn:Heq.
  - intros _. apply Qeq_bool_eq in Heq. rewrite Heq. apply Qle_refl.
  - intros Hle%negb_false_iff. by apply Qle_bool_iff.
Qed.

Lemma tuple_ltb_true_le (x y : Q * string) :
  Py.tuple_ltb y x = true -> by_score y x.
Proof.
  unfold Py.tuple_ltb, by_score.
  destruct (Qeq_bool y.1 x.1) eqn:Heq.
  - intros _. apply Qeq_bool_eq in Heq. rewrite Heq. apply Qle_refl.
  - intros Hle%negb_true_iff. apply Qlt_le_weak, Qnot_le_lt.
    intros Hxy. apply (proj2 (Qle_bool_iff _ _)) in Hxy.
    pose proof (eq_trans (eq_sym Hxy) Hle). discriminate.
Qed.

Lemma insert_sorted_perm (x : Q * string) (l : list (Q * string)) :
  Py.insert_sorted x l ≡ₚ x :: l.
Proof.
  induction l as [|y l IH]; [done|]. simpl.
  destruct (Py.tuple_ltb y x); [|done]. rewrite IH. apply Permutation_swap.
Qed.

Lemma insert_sorted_hd (x y : Q * string) (l : list (Q * string)) :
  by_score y x -> HdRel by_score y l ->
  HdRel by_score y (Py.insert_sorted x l).
Proof.
  intros Hyx Hl. destruct l as [|z l]; simpl; [by constructor|].
  destruct (Py.tuple_ltb z x); constructor; [|done].
  by inversion Hl.
Qed.

Lemma insert_sorted_Sorted (x : Q * string) (l : list (Q * string)) :
  Sorted by_score l -> Sorted by_score (Py.insert_sorted x l).
Proof.
  induction 1 as [|y l Hl IH Hy]; simpl; [by repeat constructor|].
  destruct (Py.tuple_ltb y x) eqn:Hyx.
  - constructor; [done|].
    apply insert_sorted_hd; [by apply tuple_ltb_true_le|done].
  - constructor; [by constructor|]. constructor.
    by apply tuple_ltb_false_le.
Qed.

Lemma sorted_Sorted (l : list (Q * string)) : Sorted by_score (Py.sorted l).
Proof.
  induction l as [|x l IH]; [constructor|]. by apply insert_sorted_Sorted.
Qed.

Lemma sorted_perm (l : list (Q * string)) : Py.sorted l ≡ₚ l.
Proof.
  induction l as [|x l IH]; [done|]. simpl.
  by rewrite insert_sorted_perm, IH.
Qed.

(** X19: when --near is the last enabled stage, the stream of a run that
    gets through the stages holds exactly the entries the store returned
    for the radius search, put in order of non-decreasing score whatever
    the order the store returned them in. *)
Theorem near_stream_sorted (args : Args) (g : GeoBase)
    (res0 res : list (Q * Key)) (w w' : world) (u : string) :
  near args = Some u ->
  closest args = None ->
  fuzzy args = None ->
  run_stages args g res0 w = (Ret res, w') ->
  Sorted by_score res
  /\ exists (coords : list Q) (from_keys : option (list Key)),
       res ≡ₚ findNearPoint g coords (near_limit args)
                (negb (without_grid args)) from_keys.
Proof.
  intros Hn Hc Hf. unfold run_stages. rewrite Hn, Hc, Hf.
  destruct (trep args), (exact args), (quiet args); run;
    match goal with |- context [scan_coords ?u ?g ?v ?w0] =>
      destruct (scan_coords u g v w0) as [[coords| |] w1]
    end; simpl; intros Hrun; simplify_eq;
    (split; [apply sorted_Sorted|eexists _, _; apply sorted_perm]).
Qed.

(** X20: when --exact is the last enabled stage, the stream is the keys
    the store returned for the property and the value, in the order it
    returned them, each with its position as score. *)
Theorem exact_stream_numbered (args : Args) (g : GeoBase)
    (res0 : list (Q * Key)) (w : world) (e : string) :
  exact args = Some e ->
  near args = None ->
  closest args = None ->
  fuzzy args = None ->
  exists from_keys : option (list Key),
    let found := getKeysWhere g (exact_property args) e from_keys in
    (run_stages args g res0 w).1 = Ret (Py.enumerate found)
    /\ map snd (Py.enumerate found) = found
    /\ (forall (i : nat) (k : Key),
          found !! i = Some k ->
          Py.enumerate found !! i = Some (inject_Z (Z.of_nat i), k)).
Proof.
  intros He Hn Hc Hf. unfold run_stages. rewrite He, Hn, Hc, Hf.
  destruct (trep args), (quiet args); run; eexists; (split; [reflexivity|]);
    (split; [apply enumerate_from_keys|]); intros i k Hi;
    unfold Py.enumerate; by rewrite (enumerate_from_lookup _ 0 i k Hi).
Qed.

End Streams.

(** ** More runs on the example world *)

Section MoreRuns.

Import Example.

Lemma rotation_period_two_witness :
  RotatingColors.next (RotatingColors.next RotatingColors.init)
  = RotatingColors.init.
Proof.
  destruct (rotation_period_two RotatingColors.init) as (_ & Hperiod & _).
  - split; [reflexivity|simpl; lia].
  - exact Hperiod.
Defined.

Lemma row_style_by_position_witness :
  row_styles {["__id__"]}
    (not_omitted ∅ ["__ref__"; "__id__"; "name"; "city_code"])
    RotatingColors.init !! 3%nat
  = Some ("city_code", ("white", Some "on_grey", [])).
Proof.
  destruct (row_style_by_position airports [] ∅ {["__id__"]} 25 None
              ["__ref__"; "__id__"; "name"; "city_code"] empty_world)
    as [_ Hrows].
  pose proof (Hrows 3%nat "city_code" eq_refl) as Hrow.
  vm_compute in Hrow |- *. exact Hrow.
Defined.

Lemma display_on_two_cols_lines_witness :
  two_cols_lines ["ori_por"; "airports"; "stations"]
  = ((tab ++ ljust15 "ori_por" ++ tab ++ ljust15 "airports") ++ nl)
      :: two_cols_lines ["stations"].
Proof.
  destruct (display_on_two_cols_lines ["ori_por"; "airports"; "stations"]
              empty_world) as (_ & _ & Hpair).
  exact (Hpair "ori_por" "airports" ["stations"] eq_refl).
Defined.

Lemma scan_coords_geocode_witness :
  scan_coords "(48.85,2.35)" airports true empty_world
  = scan_coords "48.85,2.35" airports true empty_world.
Proof.
  destruct (scan_coords_geocode "48.85,2.35" airports true empty_world
              (977 # 20) (47 # 20)) as [_ Hparens]; [reflexivity|].
  exact Hparens.
Defined.

Lemma scan_coords_key_witness :
  scan_coords "ORY" airports true empty_world
  = (Ret [48725278 # 1000000; 2359444 # 1000000], empty_world).
Proof.
  apply (scan_coords_key "ORY" airports true empty_world); reflexivity.
Defined.

Lemma fixed_width_cell_width_witness :
  length (cell_chars [79; 114; 108; 233; 97; 110; 115]%N 10 None) = 10%nat.
Proof.
  destruct (fixed_width_cell_width orleans ("cyan", None, []) 10 None
              [79; 114; 108; 233; 97; 110; 115]%N empty_world)
    as (_ & _ & Hlen); [reflexivity|lia|simpl; lia|].
  exact Hlen.
Defined.

Lemma fixed_width_keeps_value_witness :
  fixed_width orleans ("cyan", None, []) 10 None empty_world
  = (Ret (termcolor (orleans ++ "   ") ("cyan", None, [])), empty_world).
Proof.
  pose proof (fixed_width_keeps_value orleans ("cyan", None, []) 10 None
                [79; 114; 108; 233; 97; 110; 115]%N empty_world eq_refl)
    as Hkeeps.
  apply Hkeeps. simpl. lia.
Defined.

Lemma display_quiet_lines_witness :
  List.filter (λ hk : Q * Key, contains airports hk.2)
    [(0%Q, "ORY"); (1%Q, "CDG")]
  = [(0%Q, "ORY"); (1%Q, "CDG")].
Proof.
  destruct (display_quiet_lines airports [(0%Q, "ORY"); (1%Q, "CDG")] ∅
              ["name"] empty_world) as (_ & _ & Hall).
  apply Hall. repeat constructor.
Defined.

Lemma display_table_witness :
  display env airports [(0%Q, "ORY"); (1%Q, "CDG")] ∅ ["name"] ∅ empty_world
  = (Ret tt,
     World
       (flat_map (row_chunks airports [(0%Q, "ORY"); (1%Q, "CDG")] 26
                    (Some 26))
          (row_styles ∅ ["name"] RotatingColors.init) ++ [nl])
       [] []).
Proof.
  destruct (display_table env airports [(0%Q, "ORY"); (1%Q, "CDG")] ∅
              ["name"] ∅ [24; 80] 80 empty_world) as [Hrun _];
    [discriminate|reflexivity|reflexivity|reflexivity|].
  exact Hrun.
Defined.

Lemma display_outcome_witness :
  (display env latin1 [(0%Q, "ORL")] ∅ ["name"] ∅ empty_world).1
  = Raise UnicodeDecodeError
  /\ (display_quiet latin1 [(0%Q, "ORL")] ∅ ["name"] empty_world).1 = Ret tt.
Proof.
  destruct (display_outcome env latin1 [(0%Q, "ORL")] ∅ ["name"] ∅ [24; 80]
              80 empty_world) as (_ & Hraises & Hquiet);
    [discriminate|reflexivity|reflexivity|].
  split; [|exact Hquiet].
  apply (Hraises "name" (get latin1 "ORL" "name")).
  - by left.
  - right. by left.
  - reflexivity.
Defined.

Lemma failing_iff_validated_witness :
  failing (cli ["ORY"] None None None None None true ["name"] None) airports
    empty_world
  = (Ret tt, empty_world).
Proof.
  destruct (failing_iff_validated
              (cli ["ORY"] None None None None None true ["name"] None)
              airports empty_world) as [[_ Hpass] _].
  apply Hpass. repeat split; try done. repeat constructor.
Defined.

Lemma main_bad_limit_witness :
  main env (cli_base "airports" (Some "many") false) empty_world
  = (Raise ValueError, empty_world).
Proof.
  apply (main_bad_limit env (cli_base "airports" (Some "many") false)
           empty_world "many"); reflexivity.
Defined.

Lemma main_unknown_base_witness :
  main env (cli_base "stations" None true) empty_world
  = (Exit 1,
     World []
       (((nl ++ "/!\ Wrong base " ++ dq ++ "stations" ++ dq
          ++ ". You may select:") ++ nl)
          :: two_cols_lines ["ori_por"; "airports"])
       []).
Proof.
  apply (main_unknown_base env (cli_base "stations" None true) empty_world).
  - intros s Hs. discriminate Hs.
  - apply (bool_decide_unpack _). vm_compute. exact I.
Defined.

Lemma main_update_witness :
  main env (cli_base "airports" (Some "3") true) empty_world
  = (Exit 0, empty_world).
Proof.
  apply (main_update env (cli_base "airports" (Some "3") true) empty_world).
  - intros s Hs. simpl in Hs. injection Hs as <-. by eexists.
  - repeat constructor.
  - reflexivity.
Defined.

Lemma quiet_output_is_results_witness :
  stdout
    (main env (cli ["ORY"; "XXX"; "CDG"] None None None None None true
                 ["name"] None) empty_world).2
  = ["Paris-Orly" ++ nl; "Paris-Charles-de-Gaulle" ++ nl].
Proof.
  destruct (quiet_output_is_results env
              (cli ["ORY"; "XXX"; "CDG"] None None None None None true
                 ["name"] None) empty_world eq_refl)
    as [(_ & l & res & w1 & Hl & Hrun & Hout)|[Hfail _]].
  - vm_compute in Hl, Hrun. injection Hl as <-. injection Hrun as <- <-.
    rewrite Hout. vm_compute. reflexivity.
  - exfalso. apply Hfail. vm_compute. reflexivity.
Defined.

Lemma limiter_length_witness :
  length (limiter (Some (-1)) [(0%Q, "ORY"); (1%Q, "CDG"); (2%Q, "NCE")])
  = 2%nat.
Proof.
  destruct (limiter_length [(0%Q, "ORY"); (1%Q, "CDG"); (2%Q, "NCE")])
    as (_ & _ & _ & Hneg).
  destruct (Hneg (-1)) as [Hlen _]; [lia|]. exact Hlen.
Defined.

Lemma ref_cell_of_position_witness :
  exists h : Q,
    Py.enumerate ["ORY"; "CDG"] !! 1%nat = Some (h, "CDG")
    /\ quiet_cell airports h "CDG" "__ref__" = "1.000".
Proof.
  exact (ref_cell_of_position airports ["ORY"; "CDG"] 1 "CDG" eq_refl).
Defined.

Lemma near_stream_sorted_witness :
  Sorted by_score [(0%Q, "CDG"); (0%Q, "ORY")].
Proof.
  destruct (near_stream_sorted
              (cli [] None None (Some "48.85,2.35") None None true [] None)
              airports [(0%Q, "ORY"); (1%Q, "CDG")]
              [(0%Q, "CDG"); (0%Q, "ORY")] empty_world
              (World [] []
                 [StageCall RadiusSearch (Some ["ORY"; "CDG"])
                    [(0%Q, "CDG"); (0%Q, "ORY")]])
              "48.85,2.35" eq_refl eq_refl eq_refl)
    as [Hsorted _]; [reflexivity|].
  exact Hsorted.
Defined.

Lemma exact_stream_numbered_witness :
  exists from_keys : option (list Key),
    let found := getKeysWhere airports "__id__" "CDG" from_keys in
    (run_stages (cli [] None (Some "CDG") None None None true [] None)
       airports [(0%Q, "ORY"); (1%Q, "CDG")] empty_world).1
    = Ret (Py.enumerate found)
    /\ map snd (Py.enumerate found) = found
    /\ (forall (i : nat) (k : Key),
          found !! i = Some k ->
          Py.enumerate found !! i = Some (inject_Z (Z.of_nat i), k)).
Proof.
  exact (exact_stream_numbered
           (cli [] None (Some "CDG") None None None true [] None)
           airports [(0%Q, "ORY"); (1%Q, "CDG")] empty_world "CDG"
           eq_refl eq_refl eq_refl eq_refl).
Defined.

End MoreRuns.
